(** * iOS compliance scanner: guideline cache, scan handlers, enrichment and
      PDF layout

    A shallow embedding of the JavaScript sources
    - [server-with-caching.js] (guideline fetcher, cache, refresh and scan
      upload handlers),
    - [ai-analyzer] ([analyzeWithAI], [generateFixSuggestions]),
    - the enhanced scan handler of the full server, and
    - [pdf-generator.js] ([generateCompliancePDF]),
    together with the properties of the specification checked against them.

    Conventions of the embedding.
    - An [async] function is a function to [Result]: [Resolved v] is a
      fulfilled promise, [Rejected msg] a rejected one ([msg] is the
      [error.message]).
    - What the outside world answers (the HTTP request of the fetcher, the
      scanner process, [JSON.parse], the language-model calls, the clock) is
      an explicit argument holding the outcome.
    - [Date.now()] readings are integers (epoch milliseconds); vertical
      positions and text heights of the PDF are integers (points). *)

From Stdlib Require Import ZArith List String Ascii Bool Lia DecimalString.
Import ListNotations.
Open Scope string_scope.
Open Scope Z_scope.

(* ================================================================== *)
(** ** JavaScript helpers *)
(* ================================================================== *)

Module Js.

(** Settled promise of an [async] function. *)
Inductive Result (A : Type) : Type :=
| Resolved (a : A)
| Rejected (message : string).
Arguments Resolved {A} a.
Arguments Rejected {A} message.

(** Truthiness of a string: only the empty string is falsy. *)
Definition truthy (s : string) : bool :=
  match s with
  | EmptyString => false
  | String _ _ => true
  end.

(** Truthiness of a possibly missing string property ([undefined] is falsy). *)
Definition truthy_opt (o : option string) : bool :=
  match o with
  | Some s => truthy s
  | None => false
  end.

(** [x || d] for a possibly missing string property. *)
Definition or_default (o : option string) (d : string) : string :=
  match o with
  | Some s => if truthy s then s else d
  | None => d
  end.

(** White space removed by [String.prototype.trim] (the ASCII part of it). *)
Definition is_space (c : ascii) : bool :=
  let n := nat_of_ascii c in
  (Nat.eqb n 9 || Nat.eqb n 10 || Nat.eqb n 11 || Nat.eqb n 12
   || Nat.eqb n 13 || Nat.eqb n 32)%bool.

Fixpoint trim_start (s : string) : string :=
  match s with
  | EmptyString => EmptyString
  | String c r => if is_space c then trim_start r else s
  end.

Fixpoint trim_end (s : string) : string :=
  match s with
  | EmptyString => EmptyString
  | String c r =>
      match trim_end r with
      | EmptyString => if is_space c then EmptyString else String c EmptyString
      | r' => String c r'
      end
  end.

Definition trim (s : string) : string := trim_end (trim_start s).

(** Decimal rendering of an integer inside a string concatenation. *)
Definition show_Z (z : Z) : string := NilZero.string_of_int (Z.to_int z).

(** HTTP replies of the handlers: [res.json(body)],
    [res.status(400).json({ error })] and
    [res.status(500).json({ error, details })], where [details] is the
    [message] property of the caught value ([None] when it has none). *)
Inductive Response (A : Type) : Type :=
| Ok200 (body : A)
| Err400 (error : string)
| Err500 (error : string) (details : option string).
Arguments Ok200 {A} body.
Arguments Err400 {A} error.
Arguments Err500 {A} error details.

End Js.
Import Js.

(* ================================================================== *)
(** ** Guideline fetcher and cache ([server-with-caching.js]) *)
(* ================================================================== *)

Module Guidelines.

Record GuidelineSection : Type := {
  section : nat;
  title : string;
  content : string
}.

(** The object built by [fetchAppleGuidelines]; [lastUpdated] is the clock
    reading that the source prints with [toISOString]. *)
Record GuidelineDoc : Type := {
  lastUpdated : Z;
  url : string;
  sections : list GuidelineSection;
  error : option string
}.

Definition guidelinesUrl : string :=
  "https://developer.apple.com/app-store/review/guidelines/".

(** Outcome of the [try] block of [fetchAppleGuidelines] up to the scraping
    loop: either something threw ([axios.get] rejected on a network error, a
    timeout or an error status, or [cheerio.load] threw), or a document was
    loaded, given by the texts of the first [h2] and the first [p] of each
    [article section] element, in document order.  A body that is not HTML
    loads as a document without such elements. *)
Inductive HttpOutcome : Type :=
| HttpThrew (message : string)
| HttpLoaded (articleSections : list (string * string)).

Definition fallbackGuidelines : list GuidelineSection :=
  [ {| section := 1; title := "Safety";
       content := "Apps must be safe for users. Any content that is offensive, insensitive, upsetting, or is intended to disgust users will be rejected." |};
    {| section := 2; title := "Performance";
       content := "Apps should include features, content, and UI that elevate them beyond a repackaged website. Apps should use APIs and frameworks for their intended purposes and indicate that integration in their app description." |};
    {| section := 3; title := "Business";
       content := "There are many ways to monetize your app on the App Store. If your business model isn't obvious, make sure to explain in its metadata and App Review notes." |};
    {| section := 4; title := "Design";
       content := "Apple customers place a high value on products that are simple, refined, innovative, and easy to use. Keep these principles in mind as you work on your app's design." |};
    {| section := 5; title := "Legal";
       content := "Apps must comply with all legal requirements in any location where you make them available. It is your responsibility to understand and make sure your app conforms with all local laws." |} ].

(** The [.each((i, section) => ...)] loop: element [i] is pushed as section
    [i + 1] when both trimmed texts are truthy. *)
Fixpoint scrape (i : nat) (els : list (string * string)) : list GuidelineSection :=
  match els with
  | [] => []
  | (h2, p) :: rest =>
      let t := trim h2 in
      let c := trim p in
      if (truthy t && truthy c)%bool
      then {| section := i + 1; title := t; content := c |} :: scrape (S i) rest
      else scrape (S i) rest
  end.

Definition nonempty {A : Type} (l : list A) : bool :=
  match l with
  | [] => false
  | _ :: _ => true
  end.

(** [fetchAppleGuidelines]; [clock] is what [new Date()] reads when the
    result object is built. *)
Definition fetchAppleGuidelines (clock : Z) (http : HttpOutcome) : Result GuidelineDoc :=
  match http with
  | HttpLoaded els =>
      let guidelines := scrape 0 els in
      Resolved {| lastUpdated := clock;
                  url := guidelinesUrl;
                  sections := if nonempty guidelines then guidelines else fallbackGuidelines;
                  error := None |}
  | HttpThrew _ =>
      Resolved {| lastUpdated := clock;
                  url := guidelinesUrl;
                  sections := fallbackGuidelines;
                  error := Some "Failed to fetch live guidelines, using fallback" |}
  end.

(** The two module-level variables [guidelinesCache] and [cacheTimestamp]
    ([None] is [null]). *)
Record Cache : Type := {
  guidelinesCache : option GuidelineDoc;
  cacheTimestamp : option Z
}.

Definition emptyCache : Cache :=
  {| guidelinesCache := None; cacheTimestamp := None |}.

Definition CACHE_DURATION : Z := 24 * 60 * 60 * 1000.

(** What [getCachedGuidelines] resolves to: the cached object, possibly
    spread into a new object with [cached], [cacheAge], [stale] added and
    [error] overwritten. *)
Record Served : Type := {
  doc : GuidelineDoc;
  cached : option bool;
  cacheAge : option string;
  stale : option bool
}.

Definition plain (g : GuidelineDoc) : Served :=
  {| doc := g; cached := None; cacheAge := None; stale := None |}.

Definition with_error (g : GuidelineDoc) (e : string) : GuidelineDoc :=
  {| lastUpdated := lastUpdated g; url := url g; sections := sections g;
     error := Some e |}.

(** [guidelinesCache && cacheTimestamp && (now - cacheTimestamp < CACHE_DURATION)]:
    the cached object when the test is truthy.  A timestamp of [0] is falsy. *)
Definition fresh (st : Cache) (now : Z) : option (GuidelineDoc * Z) :=
  match guidelinesCache st, cacheTimestamp st with
  | Some g, Some ts =>
      if (negb (ts =? 0) && (now - ts <? CACHE_DURATION))%bool
      then Some (g, ts) else None
  | _, _ => None
  end.

(** The part of [getCachedGuidelines] that runs once the awaited fetch has
    settled; [now] was read before the fetch started. *)
Definition getCached_afterFetch (st : Cache) (now : Z) (fetched : Result GuidelineDoc)
  : Result Served * Cache :=
  match fetched with
  | Resolved g =>
      (Resolved (plain g),
       {| guidelinesCache := Some g; cacheTimestamp := Some now |})
  | Rejected e =>
      match guidelinesCache st with
      | Some g =>
          (Resolved {| doc := with_error g "Failed to fetch fresh guidelines, serving stale cache";
                       cached := Some true;
                       cacheAge := None;
                       stale := Some true |},
           st)
      | None => (Rejected e, st)
      end
  end.

(** [getCachedGuidelines]; [fetched] is what [fetchAppleGuidelines()] settles
    to if it is called. *)
Definition getCachedGuidelines (st : Cache) (now : Z) (fetched : Result GuidelineDoc)
  : Result Served * Cache :=
  match fresh st now with
  | Some (g, ts) =>
      (Resolved {| doc := g;
                   cached := Some true;
                   cacheAge := Some (show_Z ((now - ts) / 1000 / 60) ++ " minutes ago");
                   stale := None |},
       st)
  | None => getCached_afterFetch st now fetched
  end.

Record RefreshBody : Type := {
  message : string;
  refreshed : GuidelineDoc
}.

(** [POST /api/guidelines/refresh]; [nowAfter] is [Date.now()] read after
    the fetch has settled. *)
Definition refreshHandler (st : Cache) (fetched : Result GuidelineDoc) (nowAfter : Z)
  : Response RefreshBody * Cache :=
  match fetched with
  | Resolved g =>
      (Ok200 {| message := "Guidelines refreshed"; refreshed := g |},
       {| guidelinesCache := Some g; cacheTimestamp := Some nowAfter |})
  | Rejected e => (Err500 "Failed to refresh guidelines" (Some e), st)
  end.

(** [GET /api/guidelines]. *)
Definition guidelinesHandler (st : Cache) (now : Z) (fetched : Result GuidelineDoc)
  : Response Served * Cache :=
  match getCachedGuidelines st now fetched with
  | (Resolved g, st') => (Ok200 g, st')
  | (Rejected e, st') => (Err500 "Failed to fetch guidelines" (Some e), st')
  end.

(** *** The two operations with the real fetcher *)

Definition get (st : Cache) (now : Z) (clock : Z) (http : HttpOutcome)
  : Result Served * Cache :=
  getCachedGuidelines st now (fetchAppleGuidelines clock http).

Definition forceRefresh (st : Cache) (clock : Z) (http : HttpOutcome) (nowAfter : Z)
  : Response RefreshBody * Cache :=
  refreshHandler st (fetchAppleGuidelines clock http) nowAfter.

(** *** Requests interleaved on the event loop

    Node runs each handler to its next [await] without interruption, so a
    request is a sequence of atomic turns.  [getCachedGuidelines] has two
    turns: the one that reads [now] and starts the fetch, and the one after
    the fetch settled.  The refresh handler changes the cache only in its
    second turn, where it reads the clock. *)
Inductive Turn : Type :=
| GetBegin (id : nat) (now : Z)
| GetSettle (id : nat) (fetched : Result GuidelineDoc)
| RefreshSettle (fetched : Result GuidelineDoc) (nowAfter : Z).

Record Loop : Type := {
  cache : Cache;
  pending : list (nat * Z)   (* calls waiting on their fetch, with their [now] *)
}.

Fixpoint lookup_pending (id : nat) (p : list (nat * Z)) : option Z :=
  match p with
  | [] => None
  | (i, now) :: rest => if Nat.eqb i id then Some now else lookup_pending id rest
  end.

Fixpoint remove_pending (id : nat) (p : list (nat * Z)) : list (nat * Z) :=
  match p with
  | [] => []
  | (i, now) :: rest =>
      if Nat.eqb i id then rest else (i, now) :: remove_pending id rest
  end.

(** The timestamp a turn stores in [cacheTimestamp], if it fills the cache. *)
Definition filled (after : Cache) (fetched : Result GuidelineDoc) : option Z :=
  match fetched with
  | Resolved _ => cacheTimestamp after
  | Rejected _ => None
  end.

Definition turn (l : Loop) (t : Turn) : option Z * Loop :=
  match t with
  | GetBegin id now =>
      match fresh (cache l) now with
      | Some _ => (None, l)
      | None => (None, {| cache := cache l; pending := (id, now) :: pending l |})
      end
  | GetSettle id fetched =>
      match lookup_pending id (pending l) with
      | Some now =>
          let st' := snd (getCached_afterFetch (cache l) now fetched) in
          (filled st' fetched,
           {| cache := st'; pending := remove_pending id (pending l) |})
      | None => (None, l)
      end
  | RefreshSettle fetched nowAfter =>
      let st' := snd (refreshHandler (cache l) fetched nowAfter) in
      (filled st' fetched, {| cache := st'; pending := pending l |})
  end.

(** Runs the turns in order; returns the timestamps stored, oldest first. *)
Fixpoint turns (l : Loop) (ts : list Turn) : list Z * Loop :=
  match ts with
  | [] => ([], l)
  | t :: rest =>
      let '(f, l') := turn l t in
      let '(fs, l'') := turns l' rest in
      (match f with Some z => z :: fs | None => fs end, l'')
  end.

(** The clock readings made by the turns, in order. *)
Fixpoint readings (ts : list Turn) : list Z :=
  match ts with
  | [] => []
  | GetBegin _ now :: rest => now :: readings rest
  | GetSettle _ _ :: rest => readings rest
  | RefreshSettle _ nowAfter :: rest => nowAfter :: readings rest
  end.

(** Operations that run one after the other (no overlap). *)
Inductive Op : Type :=
| OpGet (now : Z) (fetched : Result GuidelineDoc)
| OpRefresh (fetched : Result GuidelineDoc) (nowAfter : Z).

Definition op_reading (o : Op) : Z :=
  match o with
  | OpGet now _ => now
  | OpRefresh _ nowAfter => nowAfter
  end.

Definition op_turns (id : nat) (o : Op) : list Turn :=
  match o with
  | OpGet now fetched => [GetBegin id now; GetSettle id fetched]
  | OpRefresh fetched nowAfter => [RefreshSettle fetched nowAfter]
  end.

Fixpoint ops_turns (id : nat) (os : list Op) : list Turn :=
  match os with
  | [] => []
  | o :: rest => op_turns id o ++ ops_turns (S id) rest
  end.

(** [l] is non-decreasing. *)
Fixpoint nondecreasing (l : list Z) : Prop :=
  match l with
  | [] => True
  | x :: rest => (forall y, In y rest -> x <= y) /\ nondecreasing rest
  end.

End Guidelines.
Import Guidelines.

(* ================================================================== *)
(** ** Scan handlers ([server-with-caching.js]) *)
(* ================================================================== *)

Module Scan.

#[local] Set Warnings "-register-all".

(** A value produced by [JSON.parse]. *)
Inductive json : Type :=
| JNull
| JBool (b : bool)
| JNum (n : Z)
| JStr (s : string)
| JArr (items : list json)
| JObj (props : list (string * json)).

Fixpoint assoc {A : Type} (k : string) (ps : list (string * A)) : option A :=
  match ps with
  | [] => None
  | (k', v) :: rest => if String.eqb k' k then Some v else assoc k rest
  end.

(** Property read [v.k] on a parsed value ([None] is [undefined]). *)
Definition field (k : string) (v : json) : option json :=
  match v with
  | JObj ps => assoc k ps
  | _ => None
  end.

(** What the [exec] callback of [runGreenlight] receives. *)
Record ExecOutcome : Type := {
  exec_error : option (string * option Z);   (* [error.message], [error.code] *)
  exec_stdout : string;
  exec_stderr : string
}.

Record GreenlightResult : Type := {
  stdout : string;
  stderr : string;
  exitCode : Z
}.

(** [runGreenlight]: rejects with [{ error, stderr }] when the command
    failed without output, resolves otherwise. *)
Definition runGreenlight (e : ExecOutcome) : GreenlightResult + (string * string) :=
  match exec_error e with
  | Some (msg, code) =>
      if negb (truthy (exec_stdout e))
      then inr (msg, exec_stderr e)
      else inl {| stdout := exec_stdout e; stderr := exec_stderr e;
                  exitCode := match code with Some c => c | None => 0 end |}
  | None =>
      inl {| stdout := exec_stdout e; stderr := exec_stderr e; exitCode := 0 |}
  end.

(** Outcome of [JSON.parse(result.stdout)]. *)
Inductive ParseOutcome : Type :=
| Parsed (v : json)
| SyntaxError.

(** The [try { scanResults = JSON.parse(...) } catch { scanResults = {...} }]
    block shared by the scan handlers. *)
Definition scanResultsOf (result : GreenlightResult) (parse : ParseOutcome) : json :=
  match parse with
  | Parsed v => v
  | SyntaxError =>
      JObj [ ("rawOutput", JStr (stdout result));
             ("stderr", JStr (stderr result));
             ("exitCode", JNum (exitCode result)) ]
  end.

Record UploadedFile : Type := {
  scanId : string;        (* [path.basename(req.file.path, '.ipa')] *)
  originalname : string;
  size : Z
}.

Record UploadBody : Type := {
  body_scanId : string;
  body_timestamp : Z;
  body_fileName : string;
  body_fileSize : Z;
  results : json;
  guidelines : Served
}.

(** [POST /api/scan/upload] from the point where the scanner has resolved;
    [fetched] is what [fetchAppleGuidelines()] settles to if the cache calls
    it.  A rejection of [getCachedGuidelines] is caught by the handler's
    [catch]. *)
Definition scanUpload_afterScan (f : UploadedFile) (result : GreenlightResult)
    (parse : ParseOutcome) (timestamp : Z)
    (st : Cache) (now : Z) (fetched : Result GuidelineDoc)
  : Response UploadBody * Cache :=
  let scanResults := scanResultsOf result parse in
  match getCachedGuidelines st now fetched with
  | (Resolved g, st') =>
      (Ok200 {| body_scanId := scanId f;
                body_timestamp := timestamp;
                body_fileName := originalname f;
                body_fileSize := size f;
                results := scanResults;
                guidelines := g |}, st')
  | (Rejected e, st') => (Err500 "Scan failed" (Some e), st')
  end.

Definition scanUploadHandler (file : option UploadedFile) (exec : ExecOutcome)
    (parse : ParseOutcome) (timestamp : Z)
    (st : Cache) (now : Z) (fetched : Result GuidelineDoc)
  : Response UploadBody * Cache :=
  match file with
  | None => (Err400 "No IPA file uploaded", st)
  | Some f =>
      match runGreenlight exec with
      | inl result => scanUpload_afterScan f result parse timestamp st now fetched
      | inr _ => (Err500 "Scan failed" None, st)
      end
  end.

(** *** Readers of a scan result *)

(** [v.findings || []], for a list of findings. *)
Definition findingsOf (v : json) : list json :=
  match field "findings" v with
  | Some (JArr l) => l
  | _ => []
  end.

(** [x || 0] on a count. *)
Definition count_or_0 (o : option json) : Z :=
  match o with
  | Some (JNum n) => n
  | _ => 0
  end.

Record Counts : Type := {
  critical : Z;
  warnings : Z;
  info : Z
}.

(** The counts as the PDF generator reads them:
    [scanResults.summary?.critical || 0] and so on. *)
Definition summaryCounts (v : json) : Counts :=
  match field "summary" v with
  | Some s =>
      {| critical := count_or_0 (field "critical" s);
         warnings := count_or_0 (field "warnings" s);
         info := count_or_0 (field "info" s) |}
  | None => {| critical := 0; warnings := 0; info := 0 |}
  end.

(** The counts as the front end reads them: [results.critical || 0] and so on. *)
Definition topCounts (v : json) : Counts :=
  {| critical := count_or_0 (field "critical" v);
     warnings := count_or_0 (field "warnings" v);
     info := count_or_0 (field "info" v) |}.

Definition has_severity (sev : string) (f : json) : bool :=
  match field "severity" f with
  | Some (JStr s) => String.eqb s sev
  | _ => false
  end.

Definition count_severity (sev : string) (fs : list json) : Z :=
  Z.of_nat (List.length (filter (has_severity sev) fs)).

(** The severity tally of a list of findings, in the specification's words:
    the number of findings of each severity.  No function of the sources
    computes it. *)
Definition severityTally (fs : list json) : Counts :=
  {| critical := count_severity "CRITICAL" fs;
     warnings := count_severity "WARNING" fs;
     info := count_severity "INFO" fs |}.

End Scan.
Import Scan.

(* ================================================================== *)
(** ** Enrichment ([analyzeWithAI], [generateFixSuggestions]) and the
       enhanced scan handler *)
(* ================================================================== *)

Module Enricher.

(** A finding is a JavaScript object: its own properties in insertion
    order. *)
Definition Finding : Type := list (string * json).

(** [{ ...o, k: v }]: the properties of [o] in their order, [k] updated in
    place when [o] has it and appended otherwise. *)
Fixpoint set_prop (k : string) (v : json) (o : Finding) : Finding :=
  match o with
  | [] => [(k, v)]
  | (k', v') :: rest =>
      if String.eqb k' k then (k, v) :: rest else (k', v') :: set_prop k v rest
  end.

(** [getAnthropicKey]: the environment variable when truthy, else the token
    of the profile file ([None] when reading or parsing it threw, or when
    the file has no token). *)
Definition getAnthropicKey (envKey : option string) (fileToken : option string)
  : option string :=
  if truthy_opt envKey then envKey else fileToken.

Record Recommendation : Type := {
  rec_title : string;
  rec_description : string
}.

(** The analysis object attached as [scanResults.aiAnalysis]. *)
Record AiAnalysis : Type := {
  ai_error : option string;
  riskLevel : option string;
  recommendations : option (list Recommendation);
  model : option string;
  analyzedAt : option Z
}.

(** What happens in [analyzeWithAI] once a key was found, for a reply of
    the shape the prompt asks for; [Reply.ReplyOutcome] below takes the
    reply as parsed, of any shape. *)
Inductive AnalysisOutcome : Type :=
| AiThrew (message : string)      (* the client, the call, [content[0].text] or [JSON.parse] threw *)
| AiNoJson                        (* the reply text holds no [{...}] *)
| AiJson (analysis : AiAnalysis). (* the object parsed from the reply *)

Definition analyzeWithAI (apiKey : option string) (o : AnalysisOutcome) (clock : Z)
  : Result AiAnalysis :=
  if negb (truthy_opt apiKey) then
    Resolved {| ai_error := Some "No Anthropic API key found";
                riskLevel := Some "Unable to assess (no AI available)";
                recommendations := Some [];
                model := None; analyzedAt := None |}
  else
    match o with
    | AiJson a =>
        Resolved {| ai_error := ai_error a;
                    riskLevel := riskLevel a;
                    recommendations := recommendations a;
                    model := Some "claude-sonnet-4";
                    analyzedAt := Some clock |}
    | AiNoJson =>
        Resolved {| ai_error := Some "Failed to parse AI response";
                    riskLevel := Some "Unable to assess";
                    recommendations := Some [];
                    model := None; analyzedAt := None |}
    | AiThrew msg =>
        Resolved {| ai_error := Some msg;
                    riskLevel := Some "Unable to assess (AI error)";
                    recommendations := Some [];
                    model := None; analyzedAt := None |}
    end.

(** The world of one [generateFixSuggestions] call: the key found, whether
    building the client throws, and for the call made for the finding at
    each index the text [message.content[0].text] of the reply ([None] when
    the call was rejected, timed out, or the reply has no such text). *)
Record FixWorld : Type := {
  fix_apiKey : option string;
  fix_clientThrows : bool;
  fix_reply : nat -> option string
}.

(** The [for (const finding of findings)] loop with its inner [try]. *)
Fixpoint fix_loop (reply : nat -> option string) (i : nat) (findings : list Finding)
  : list Finding :=
  match findings with
  | [] => []
  | finding :: rest =>
      match reply i with
      | Some text =>
          set_prop "fixSuggestion" (JStr (trim text)) finding
      | None => finding
      end :: fix_loop reply (S i) rest
  end.

Definition generateFixSuggestions (w : FixWorld) (findings : list Finding)
  : Result (list Finding) :=
  if negb (truthy_opt (fix_apiKey w)) then Resolved findings
  else if fix_clientThrows w then Resolved findings
  else Resolved (fix_loop (fix_reply w) 0 findings).

(** The scan result object the enhanced handler and the PDF generator work
    on. *)
Record Summary : Type := {
  status : option string;
  sum_critical : option Z;
  sum_warnings : option Z;
  sum_info : option Z
}.

Record ScanResults : Type := {
  summary : option Summary;
  findings : option (list Finding);
  aiAnalysis : option AiAnalysis
}.

(** Steps 2 and 3 of [POST /api/scan/enhanced]: attach the analysis, then
    replace the findings by the enriched ones when there are findings and
    the analysis has no truthy [error]. *)
Definition enrich (scan : ScanResults) (apiKey : option string)
    (o : AnalysisOutcome) (clock : Z) (w : FixWorld) : Result ScanResults :=
  match analyzeWithAI apiKey o clock with
  | Rejected e => Rejected e
  | Resolved ai =>
      let scan1 := {| summary := summary scan; findings := findings scan;
                      aiAnalysis := Some ai |} in
      match findings scan1 with
      | Some (f :: fs) =>
          if negb (truthy_opt (ai_error ai)) then
            match generateFixSuggestions w (f :: fs) with
            | Resolved enhanced =>
                Resolved {| summary := summary scan1; findings := Some enhanced;
                            aiAnalysis := aiAnalysis scan1 |}
            | Rejected e => Rejected e
            end
          else Resolved scan1
      | _ => Resolved scan1
      end
  end.

(** The findings of a scan result: [scanResults.findings || []]. *)
Definition findingsList (scan : ScanResults) : list Finding :=
  match findings scan with
  | Some l => l
  | None => []
  end.

(** A finding without its [fixSuggestion] property. *)
Definition without_fix (f : Finding) : Finding :=
  filter (fun kv => negb (String.eqb (fst kv) "fixSuggestion")) f.

(** What one turn of the loop of [generateFixSuggestions] may do to a
    finding: leave it, or set its [fixSuggestion]. *)
Definition enriched_from (f f' : Finding) : Prop :=
  f' = f \/ exists t, f' = set_prop "fixSuggestion" (JStr t) f.

End Enricher.
Import Enricher.

(* ================================================================== *)
(** ** PDF layout ([pdf-generator.js]) *)
(* ================================================================== *)

(** The generator draws at explicit positions and keeps its own cursor [y];
    the pages of the model are the pages it opens itself with
    [doc.addPage()].  Widths, margins and limits are the constants of the
    source. *)

Module Pdf.

#[local] Open Scope list_scope.

(** A text property of a finding as the generator prints it; the printed
    properties ([title], [description], [guideline], [fixSuggestion]) are
    strings or missing. *)
Definition text (k : string) (f : Finding) : option string :=
  match assoc k f with
  | Some (JStr s) => Some s
  | _ => None
  end.

(** A content region placed on a page. *)
Inductive Block : Type :=
| BHeader
| BSummary (status : string) (critical warnings info : Z)
| BRisk (riskLevel : string)
| BFindingsHeading
| BFinding (index : nat) (finding : Finding)
| BRecsHeading
| BRec (index : nat) (recommendation : Recommendation)
| BFooter.

(** A page under construction or finished: its blocks in placement order,
    each with the cursor [y] it was placed at. *)
Definition Page : Type := list (Z * Block).

(** Blocks placed by the loops and the recommendations heading: the blocks
    before which the generator tests the cursor. *)
Definition isFlow (b : Block) : bool :=
  match b with
  | BFinding _ _ | BRec _ _ | BRecsHeading => true
  | _ => false
  end.

(** Every block of [p] that a loop placed was placed at a cursor of at most
    [limit]. *)
Definition flowWithin (limit : Z) (p : Page) : Prop :=
  forall at_y b, In (at_y, b) p -> isFlow b = true -> at_y <= limit.

(** The document being written: the finished pages, the open page and the
    cursor [y]. *)
Record Doc : Type := {
  finished : list Page;
  current : Page;
  y : Z
}.

(** [doc.addPage(); y = top]. *)
Definition addPage (top : Z) (d : Doc) : Doc :=
  {| finished := finished d ++ [current d]; current := []; y := top |}.

(** Drawing a block at the cursor and advancing the cursor by [h]. *)
Definition place (b : Block) (h : Z) (d : Doc) : Doc :=
  {| finished := finished d; current := current d ++ [(y d, b)]; y := y d + h |}.

(** [if (y > limit) { doc.addPage(); y = 50; }]. *)
Definition breakIfBeyond (limit : Z) (d : Doc) : Doc :=
  if y d >? limit then addPage 50 d else d.

Definition count_of (o : option Z) : Z :=
  match o with
  | Some n => n
  | None => 0
  end.

Definition summaryBlock (scan : ScanResults) : Block :=
  match summary scan with
  | Some s =>
      BSummary (or_default (status s) "UNKNOWN")
               (count_of (sum_critical s)) (count_of (sum_warnings s))
               (count_of (sum_info s))
  | None => BSummary "UNKNOWN" 0 0 0
  end.

(** [scanResults.aiAnalysis?.riskLevel] when truthy. *)
Definition riskOf (scan : ScanResults) : option string :=
  match aiAnalysis scan with
  | Some ai => if truthy_opt (riskLevel ai) then riskLevel ai else None
  | None => None
  end.

(** [scanResults.aiAnalysis?.recommendations] when present (an array is
    truthy even when empty). *)
Definition recsOf (scan : ScanResults) : option (list Recommendation) :=
  match aiAnalysis scan with
  | Some ai => recommendations ai
  | None => None
  end.

Section Layout.

(** [doc.heightOfString(text, { width })] of the PDF library, which
    measures in the font size set by the last [doc.fontSize] call:
    [heightOfString size text width]. *)
Variable heightOfString : Z -> string -> Z -> Z.

(** How far the body of the [findings.forEach] callback moves the cursor. *)
Definition findingHeight (f : Finding) : Z :=
  30
  + (heightOfString 10 (or_default (text "description" f) "No description") 512 + 10)
  + (if truthy_opt (text "guideline" f) then 15 else 0)
  + (match text "fixSuggestion" f with
     | Some suggestion =>
         if truthy suggestion then 12 + (heightOfString 9 suggestion 497 + 15) else 0
     | None => 0
     end)
  + 20.

Definition recHeight (r : Recommendation) : Z :=
  18 + (heightOfString 10 (rec_description r) 497 + 20).

Definition blockHeight (b : Block) : Z :=
  match b with
  | BHeader => 125                  (* drawn at fixed positions; [let y = 175] *)
  | BSummary _ _ _ _ => 30 + 80 + 30
  | BRisk _ => 20 + 25
  | BFindingsHeading => 30
  | BFinding _ f => findingHeight f
  | BRecsHeading => 30
  | BRec _ r => recHeight r
  | BFooter => 0                    (* last block; the cursor is not used after it *)
  end.

Definition put (b : Block) (d : Doc) : Doc := place b (blockHeight b) d.

(** [findings.forEach((finding, index) => ...)]. *)
Fixpoint layoutFindings (index : nat) (fs : list Finding) (d : Doc) : Doc :=
  match fs with
  | [] => d
  | f :: rest =>
      layoutFindings (S index) rest (put (BFinding index f) (breakIfBeyond 700 d))
  end.

(** [recommendations.forEach((rec, index) => ...)]. *)
Fixpoint layoutRecs (index : nat) (rs : list Recommendation) (d : Doc) : Doc :=
  match rs with
  | [] => d
  | r :: rest =>
      layoutRecs (S index) rest (put (BRec index r) (breakIfBeyond 700 d))
  end.

Definition layoutRecommendations (scan : ScanResults) (d : Doc) : Doc :=
  match recsOf scan with
  | Some rs => layoutRecs 0 rs (put BRecsHeading (breakIfBeyond 650 d))
  | None => d
  end.

Definition layoutRisk (scan : ScanResults) (d : Doc) : Doc :=
  match riskOf scan with
  | Some r => put (BRisk r) d
  | None => d
  end.

(** The document up to the end of the recommendations. *)
Definition layoutBody (scan : ScanResults) : Doc :=
  let d0 := {| finished := []; current := []; y := 50 |} in
  let d1 := put BHeader d0 in
  let d2 := put (summaryBlock scan) d1 in
  let d3 := layoutRisk scan d2 in
  let d4 := put BFindingsHeading d3 in
  let d5 := layoutFindings 0 (findingsList scan) d4 in
  layoutRecommendations scan d5.

(** [generateCompliancePDF]: the pages written, in order.  The footer goes
    on a page of its own at [y = 350]. *)
Definition generateCompliancePDF (scan : ScanResults) : list Page :=
  let d := put BFooter (addPage 350 (layoutBody scan)) in
  finished d ++ [current d].

(** The blocks of a page, and of a list of pages in page order. *)
Definition pageBlocks (p : Page) : list Block := map snd p.
Definition allBlocks (ps : list Page) : list Block := List.concat (map pageBlocks ps).

Definition sumHeights (bs : list Block) : Z :=
  fold_right (fun b acc => blockHeight b + acc) 0 bs.

(** The blocks of [p] sit one below the other from [top]: each is placed
    where the one before it ended. *)
Fixpoint placedFrom (top : Z) (p : Page) : Prop :=
  match p with
  | [] => True
  | (at_y, b) :: rest => at_y = top /\ placedFrom (top + blockHeight b) rest
  end.

(** The state of a document while the body is laid out: on every page the
    blocks sit one below the other from the top margin, the cursor is where
    the open page ends, and every block placed after a cursor test starts
    at a cursor of at most 700. *)
Definition paged (d : Doc) : Prop :=
  Forall (placedFrom 50) (finished d)
  /\ placedFrom 50 (current d)
  /\ y d = 50 + sumHeights (pageBlocks (current d))
  /\ Forall (flowWithin 700) (finished d)
  /\ flowWithin 700 (current d).

End Layout.

(** The blocks of a report in document order, in the specification's words:
    title block, summary block, (risk assessment,) findings heading, one
    block per finding, optional recommendations, footer block. *)
Fixpoint findingBlocks (index : nat) (fs : list Finding) : list Block :=
  match fs with
  | [] => []
  | f :: rest => BFinding index f :: findingBlocks (S index) rest
  end.

Fixpoint recBlocks (index : nat) (rs : list Recommendation) : list Block :=
  match rs with
  | [] => []
  | r :: rest => BRec index r :: recBlocks (S index) rest
  end.

Definition documentBlocks (scan : ScanResults) : list Block :=
  [BHeader; summaryBlock scan]
  ++ match riskOf scan with Some r => [BRisk r] | None => [] end
  ++ [BFindingsHeading]
  ++ findingBlocks 0 (findingsList scan)
  ++ match recsOf scan with Some rs => BRecsHeading :: recBlocks 0 rs | None => [] end
  ++ [BFooter].

(** Everything written to a document so far, in page order. *)
Definition writtenBlocks (d : Doc) : list Block :=
  allBlocks (finished d ++ [current d]).

(** The findings shown by a sequence of blocks, in order. *)
Fixpoint shownFindings (bs : list Block) : list Finding :=
  match bs with
  | [] => []
  | BFinding _ f :: rest => f :: shownFindings rest
  | _ :: rest => shownFindings rest
  end.

(** A text measure of the kind the specification describes (height
    proportional to the number of wrapped lines at a fixed budget of
    characters per line): at size 10 a line is 12 points high and a
    character 6 points wide. *)
Definition wrappedHeight (fontSize : Z) (s : string) (width : Z) : Z :=
  let perLine := (width * 10) / (6 * fontSize) in
  let line := (12 * fontSize) / 10 in
  line * ((Z.of_nat (String.length s) + perLine - 1) / perLine).

(** [n] copies of [s]. *)
Fixpoint replicate (n : nat) (s : string) : string :=
  match n with
  | O => EmptyString
  | S m => (s ++ replicate m s)%string
  end.

End Pdf.
Import Pdf.

(* ================================================================== *)
(** ** The health route, the cache as a running server sees it, and the
       fetcher of the plain server *)
(* ================================================================== *)

Module Server.

(** The [guidelines] object of the [/health] reply.  [stale] is the value
    of [guidelineAge && guidelineAge > CACHE_DURATION], which is [null], [0]
    or a boolean. *)
Record GuidelineStatus : Type := {
  h_cached : bool;
  h_age : string;
  h_stale : json;
  h_lastUpdated : option Z;
  h_sections : nat
}.

Record HealthBody : Type := {
  h_status : string;
  h_service : string;
  h_version : string;
  h_guidelines : GuidelineStatus
}.

(** [cacheTimestamp ? Date.now() - cacheTimestamp : null]. *)
Definition guidelineAge (st : Cache) (now : Z) : option Z :=
  match cacheTimestamp st with
  | Some ts => if ts =? 0 then None else Some (now - ts)
  | None => None
  end.

(** [guidelineAge && guidelineAge > CACHE_DURATION]. *)
Definition isStale (age : option Z) : json :=
  match age with
  | None => JNull
  | Some a => if a =? 0 then JNum 0 else JBool (a >? CACHE_DURATION)
  end.

(** [GET /health]; [now] is the one reading of [Date.now()]. *)
Definition health (st : Cache) (now : Z) : HealthBody :=
  let age := guidelineAge st now in
  {| h_status := "ok";
     h_service := "iOS Compliance Scanner API";
     h_version := "1.0.0";
     h_guidelines :=
       {| h_cached := match guidelinesCache st with Some _ => true | None => false end;
          h_age := match age with
                   | Some a =>
                       if a =? 0 then "not cached"
                       else show_Z (a / 1000 / 60) ++ " minutes"
                   | None => "not cached"
                   end;
          h_stale := isStale age;
          h_lastUpdated := match cacheTimestamp st with
                           | Some ts => if ts =? 0 then None else Some ts
                           | None => None
                           end;
          h_sections := match guidelinesCache st with
                        | Some g => List.length (sections g)
                        | None => 0%nat
                        end |} |}.

(** The [app.listen] callback: the cache is filled once at start-up; a
    rejection is logged and dropped. *)
Definition startup (now clock : Z) (http : HttpOutcome) : Cache :=
  snd (get emptyCache now clock http).

(** A turn of the event loop whose fetch, if it has one, was made by
    [fetchAppleGuidelines]. *)
Definition fromFetcher (t : Turn) : Prop :=
  match t with
  | GetBegin _ _ => True
  | GetSettle _ fetched => exists clock http, fetched = fetchAppleGuidelines clock http
  | RefreshSettle fetched _ => exists clock http, fetched = fetchAppleGuidelines clock http
  end.

(** The cache variables are set together or not at all. *)
Definition paired (st : Cache) : Prop :=
  (guidelinesCache st = None /\ cacheTimestamp st = None)
  \/ (exists g ts, guidelinesCache st = Some g /\ cacheTimestamp st = Some ts).

(** The turns in which the given calls of [getCachedGuidelines] start, one
    after the other. *)
Definition begins (calls : list (nat * Z)) : list Turn :=
  map (fun c => GetBegin (fst c) (snd c)) calls.

(** [fetchAppleGuidelines] of the plain server (no cache, no built-in
    sections): the scraped list as it is, and an empty list on failure. *)
Definition fetchAppleGuidelinesPlain (clock : Z) (http : HttpOutcome)
  : Result GuidelineDoc :=
  match http with
  | HttpLoaded els =>
      Resolved {| lastUpdated := clock;
                  url := guidelinesUrl;
                  sections := scrape 0 els;
                  error := None |}
  | HttpThrew _ =>
      Resolved {| lastUpdated := clock;
                  url := guidelinesUrl;
                  sections := [];
                  error := Some "Failed to fetch live guidelines" |}
  end.

(** Section numbers grow strictly along the list. *)
Fixpoint increasing (l : list nat) : Prop :=
  match l with
  | [] => True
  | x :: rest => (forall y, In y rest -> (x < y)%nat) /\ increasing rest
  end.

End Server.
Import Server.

(* ================================================================== *)
(** ** The analysis reply as parsed *)
(* ================================================================== *)

Module Reply.

(** What happens in [analyzeWithAI] once a key was found, with the reply
    as [JSON.parse] returns it: the text from the first to the last brace
    of the reply parses to an object of any properties, or the reply has no
    such text, or something threw (the client, the call, reading
    [content[0].text], or [JSON.parse]). *)
Inductive ReplyOutcome : Type :=
| ReplyThrew (message : string)
| ReplyNoJson
| ReplyJson (analysis : list (string * json)).

(** The object returned on a failure. *)
Definition failure (error risk : string) : list (string * json) :=
  [ ("error", JStr error); ("riskLevel", JStr risk); ("recommendations", JArr []) ].

(** [analyzeWithAI] with the object it returns: on success the parsed
    object spread into a new one with [model] and [analyzedAt] set
    ([analyzedAt] is the clock reading that the source prints with
    [toISOString]).  [AnalysisOutcome] and [Enricher.analyzeWithAI] read the
    same function for replies of the shape the prompt asks for. *)
Definition analyzeWithAI (apiKey : option string) (o : ReplyOutcome) (clock : Z)
  : Result (list (string * json)) :=
  if negb (truthy_opt apiKey) then
    Resolved (failure "No Anthropic API key found" "Unable to assess (no AI available)")
  else
    match o with
    | ReplyJson analysis =>
        Resolved (set_prop "analyzedAt" (JNum clock)
                    (set_prop "model" (JStr "claude-sonnet-4") analysis))
    | ReplyNoJson =>
        Resolved (failure "Failed to parse AI response" "Unable to assess")
    | ReplyThrew msg =>
        Resolved (failure msg "Unable to assess (AI error)")
    end.

End Reply.

(* ================================================================== *)
(** ** Notions used by the further properties *)
(* ================================================================== *)

Module Enhanced.

(** The reply that reaches the finding at index [i]: the text of the call's
    answer when a key was found, the client was built and the call
    answered. *)
Definition answer (w : FixWorld) (i : nat) : option string :=
  if (truthy_opt (fix_apiKey w) && negb (fix_clientThrows w))%bool
  then fix_reply w i else None.

(** JavaScript truthiness of a parsed value. *)
Definition jsTruthy (v : json) : bool :=
  match v with
  | JNull => false
  | JBool b => b
  | JNum n => negb (n =? 0)
  | JStr s => truthy s
  | JArr _ => true
  | JObj _ => true
  end.

(** The property [k] of [f] is missing, a string, or falsy: the cases in
    which the generator's test [if (finding.k)] and the text it prints are
    the ones [text k f] gives. *)
Definition textualProp (k : string) (f : Finding) : bool :=
  match assoc k f with
  | None => true
  | Some (JStr _) => true
  | Some v => negb (jsTruthy v)
  end.

(** The properties of a finding that add to the height of its block are
    textual. *)
Definition textual (f : Finding) : bool :=
  (textualProp "description" f && textualProp "guideline" f
   && textualProp "fixSuggestion" f)%bool.

(** The property names of an object, in order. *)
Definition keys (f : Finding) : list string := map fst f.

(** The number of blocks the generator tests the cursor before. *)
Definition flowCount (scan : ScanResults) : nat :=
  (List.length (findingsList scan)
   + match recsOf scan with
     | Some rs => 1 + List.length rs
     | None => 0
     end)%nat.

(** The pages of a document: the finished ones and the open one. *)
Definition pagesOf (d : Doc) : list Page := finished d ++ [current d].

(** The first page opens with the header at the top margin and the
    summary right below it. *)
Definition headed (scan : ScanResults) (pages : list Page) : Prop :=
  exists p rest,
    pages = ((50, BHeader) :: (175, summaryBlock scan) :: p) :: rest.

(** The document when the findings loop starts: header, summary, risk
    assessment and findings heading on the first page. *)
Definition layoutPrelude (heightOfString : Z -> string -> Z -> Z)
    (scan : ScanResults) : Doc :=
  put heightOfString BFindingsHeading
    (layoutRisk heightOfString scan
       (put heightOfString (summaryBlock scan)
          (put heightOfString BHeader {| finished := []; current := []; y := 50 |}))).

(** No text has a negative height. *)
Definition nonnegative (heightOfString : Z -> string -> Z -> Z) : Prop :=
  forall size s width, 0 <= heightOfString size s width.

End Enhanced.
Import Enhanced.

(* ================================================================== *)
(** ** Concrete inputs *)
(* ================================================================== *)

Definition fallbackDoc (clock : Z) : GuidelineDoc :=
  {| lastUpdated := clock;
     url := guidelinesUrl;
     sections := fallbackGuidelines;
     error := Some "Failed to fetch live guidelines, using fallback" |}.

(** A document scraped from a page with two sections, used as a cache
    entry of an earlier successful fetch. *)
Definition livePage : HttpOutcome :=
  HttpLoaded [ ("  1. Safety ", "When people install an app, they want to feel confident.");
               ("", "a section without heading");
               ("5. Legal", " Apps must comply with all legal requirements. ") ].

Definition liveDoc : GuidelineDoc :=
  {| lastUpdated := 1000;
     url := guidelinesUrl;
     sections := [ {| section := 1; title := "1. Safety";
                      content := "When people install an app, they want to feel confident." |};
                   {| section := 3; title := "5. Legal";
                      content := "Apps must comply with all legal requirements." |} ];
     error := None |}.


Definition emptyLoop : Loop := {| cache := emptyCache; pending := [] |}.

(** The text of a parsed value, as the scanner prints it (strings of the
    examples need no escaping). *)
Definition quoted (s : string) : string :=
  String (ascii_of_nat 34) (s ++ String (ascii_of_nat 34) EmptyString).

Fixpoint stringify (v : json) : string :=
  match v with
  | JNull => "null"
  | JBool true => "true"
  | JBool false => "false"
  | JNum n => show_Z n
  | JStr s => quoted s
  | JArr items =>
      "[" ++ (fix go (l : list json) : string :=
                match l with
                | [] => ""
                | [x] => stringify x
                | x :: rest => stringify x ++ "," ++ go rest
                end) items ++ "]"
  | JObj props =>
      "{" ++ (fix go (l : list (string * json)) : string :=
                match l with
                | [] => ""
                | [(k, x)] => quoted k ++ ":" ++ stringify x
                | (k, x) :: rest => quoted k ++ ":" ++ stringify x ++ "," ++ go rest
                end) props ++ "}"
  end.

(** Scanner output that is valid JSON but not a scan result. *)
Definition numberResult : GreenlightResult :=
  {| stdout := "42"; stderr := ""; exitCode := 0 |}.

(** Scanner output that is not JSON. *)
Definition crashResult : GreenlightResult :=
  {| stdout := "Segmentation fault"; stderr := ""; exitCode := 139 |}.

(** Structured scanner output whose counts disagree with its findings: no
    critical issue reported, one critical finding listed. *)
Definition mismatchedOutput : json :=
  JObj [ ("status", JStr "BLOCKED");
         ("critical", JNum 0); ("warnings", JNum 0); ("info", JNum 0);
         ("summary", JObj [ ("status", JStr "BLOCKED");
                            ("critical", JNum 0); ("warnings", JNum 0);
                            ("info", JNum 0) ]);
         ("findings", JArr [ JObj [ ("severity", JStr "CRITICAL");
                                    ("title", JStr "X") ] ]) ].

Definition mismatchedResult : GreenlightResult :=
  {| stdout := stringify mismatchedOutput; stderr := ""; exitCode := 1 |}.

(** Two findings of a scan, the second with a suggestion of an earlier
    pass. *)
Definition findingA : Finding :=
  [ ("severity", JStr "CRITICAL"); ("title", JStr "Private API usage");
    ("description", JStr "The binary links a private framework.");
    ("guideline", JStr "2.5.1") ].

Definition findingB : Finding :=
  [ ("severity", JStr "INFO"); ("fixSuggestion", JStr "old advice");
    ("title", JStr "Insecure HTTP URL") ].

(** A world where the call for the first finding answers and the call for
    the second one fails. *)
Definition firstReplyOnly : FixWorld :=
  {| fix_apiKey := Some "sk-key";
     fix_clientThrows := false;
     fix_reply := fun i => match i with
                           | O => Some "  Remove the private framework. "
                           | _ => None
                           end |}.

(** A report with two findings whose descriptions wrap to 24 lines each. *)
Definition longFinding (name : string) : Finding :=
  [ ("severity", JStr "WARNING"); ("title", JStr name);
    ("description", JStr (replicate 2040 "x")) ].

Definition twoLongFindings : ScanResults :=
  {| summary := Some {| status := Some "WARNING"; sum_critical := Some 0;
                        sum_warnings := Some 2; sum_info := Some 0 |};
     findings := Some [longFinding "First"; longFinding "Second"];
     aiAnalysis := None |}.

Definition firstPage : Page :=
  [ (50, BHeader); (175, BSummary "WARNING" 0 2 0); (315, BFindingsHeading);
    (345, BFinding 0 (longFinding "First"));
    (693, BFinding 1 (longFinding "Second")) ].

(** The measure [wrappedHeight], never below 0. *)
Definition clampedHeight (fontSize : Z) (s : string) (width : Z) : Z :=
  Z.max 0 (wrappedHeight fontSize s width).

(** A scan with two short findings and no analysis. *)
Definition shortScan : ScanResults :=
  {| summary := Some {| status := Some "BLOCKED"; sum_critical := Some 1;
                        sum_warnings := Some 0; sum_info := Some 1 |};
     findings := Some [findingA; findingB];
     aiAnalysis := None |}.

(** A world where every suggestion call answers. *)
Definition everyReply : FixWorld :=
  {| fix_apiKey := Some "sk-key";
     fix_clientThrows := false;
     fix_reply := fun _ => Some " Load the page over HTTPS. " |}.

(** [findingB] after such a call. *)
Definition findingB_enriched : Finding :=
  [ ("severity", JStr "INFO"); ("fixSuggestion", JStr "Load the page over HTTPS.");
    ("title", JStr "Insecure HTTP URL") ].

(* ================================================================== *)
(** * Properties *)
(* ================================================================== *)

(** ** The fetcher and the cache *)

Example fetch_livePage : fetchAppleGuidelines 1000 livePage = Resolved liveDoc.
Proof. reflexivity. Qed.

Lemma nonempty_true {A : Type} (l : list A) : nonempty l = true -> l <> [].
Proof. destruct l; [discriminate | intros _; discriminate]. Qed.

Lemma nonempty_false {A : Type} (l : list A) : nonempty l = false -> l = [].
Proof. destruct l; [reflexivity | discriminate]. Qed.

Lemma fetch_failure_is_fallback (clock : Z) (msg : string) :
  fetchAppleGuidelines clock (HttpThrew msg) = Resolved (fallbackDoc clock).
Proof. reflexivity. Qed.

Lemma fetch_resolves (clock : Z) (http : HttpOutcome) :
  exists g, fetchAppleGuidelines clock http = Resolved g.
Proof. destruct http; eexists; reflexivity. Qed.

Lemma getCached_resolved_fetch (st : Cache) (now : Z) (g : GuidelineDoc) :
  exists s st',
    getCachedGuidelines st now (Resolved g) = (Resolved s, st') /\ stale s = None.
Proof.
  unfold getCachedGuidelines.
  destruct (fresh st now) as [[g0 ts]|].
  - eexists; eexists; split; reflexivity.
  - eexists; eexists; split; reflexivity.
Qed.

(** C10.  The fetcher is total: whatever the outbound request does, it
    resolves, to a document with a non-empty list of sections, which is the
    list scraped from the page when that is non-empty and the built-in list
    of five sections otherwise, with the [error] property set exactly when
    something threw.  Hence with this fetcher [getCachedGuidelines] never
    serves a stale entry and never rejects, and the refresh handler never
    answers with a failure. *)
Theorem fetchAppleGuidelines_total (clock : Z) (http : HttpOutcome) :
  exists g,
    fetchAppleGuidelines clock http = Resolved g
    /\ sections g <> []
    /\ List.length fallbackGuidelines = 5%nat
    /\ match http with
       | HttpThrew _ =>
           sections g = fallbackGuidelines
           /\ error g = Some "Failed to fetch live guidelines, using fallback"
       | HttpLoaded els =>
           error g = None
           /\ ((scrape 0 els <> [] /\ sections g = scrape 0 els)
               \/ (scrape 0 els = [] /\ sections g = fallbackGuidelines))
       end
    /\ (forall st now, exists s st',
          get st now clock http = (Resolved s, st') /\ stale s = None)
    /\ (forall st nowAfter, exists body st',
          forceRefresh st clock http nowAfter = (Ok200 body, st')).
Proof.
  destruct http as [msg | els].
  - exists (fallbackDoc clock).
    split; [reflexivity |].
    split; [discriminate |].
    split; [reflexivity |].
    split; [split; reflexivity |].
    split.
    + intros st now. unfold get. rewrite fetch_failure_is_fallback.
      apply getCached_resolved_fetch.
    + intros st nowAfter. eexists; eexists; reflexivity.
  - eexists. split; [reflexivity |]. cbn [sections error].
    destruct (nonempty (scrape 0 els)) eqn:E.
    + apply nonempty_true in E.
      split; [exact E |].
      split; [reflexivity |].
      split; [split; [reflexivity | left; split; [exact E | reflexivity]] |].
      split.
      * intros st now. unfold get. cbn [fetchAppleGuidelines].
        apply getCached_resolved_fetch.
      * intros st nowAfter. eexists; eexists; reflexivity.
    + apply nonempty_false in E.
      split; [discriminate |].
      split; [reflexivity |].
      split; [split; [reflexivity | right; split; [exact E | reflexivity]] |].
      split.
      * intros st now. unfold get. cbn [fetchAppleGuidelines].
        apply getCached_resolved_fetch.
      * intros st nowAfter. eexists; eexists; reflexivity.
Qed.

(** The catch branch of [getCachedGuidelines] does what its comment says,
    for a fetcher that rejects: an existing entry is served as stale and the
    cache is left as it was; without an entry the rejection is passed on. *)
Lemma getCached_rejected_fetch (st : Cache) (now : Z) (e : string) :
  fresh st now = None ->
  getCachedGuidelines st now (Rejected e)
  = match guidelinesCache st with
    | Some g =>
        (Resolved {| doc := with_error g "Failed to fetch fresh guidelines, serving stale cache";
                     cached := Some true; cacheAge := None; stale := Some true |}, st)
    | None => (Rejected e, st)
    end.
Proof.
  intros H. unfold getCachedGuidelines. rewrite H. reflexivity.
Qed.

(** C2.  What [get] does when the entry is absent or expired and the
    outbound request fails: the fetcher has already turned the failure
    into the built-in document, so the call resolves to that document
    without the [cached] and [stale] marks and replaces the entry by it,
    whether or not an entry existed. *)
Theorem get_failed_fetch_overwrites_entry
    (st : Cache) (now clock : Z) (msg : string) :
  fresh st now = None ->
  get st now clock (HttpThrew msg)
  = (Resolved {| doc := fallbackDoc clock;
                 cached := None; cacheAge := None; stale := None |},
     {| guidelinesCache := Some (fallbackDoc clock);
        cacheTimestamp := Some now |}).
Proof.
  intros H. unfold get, getCachedGuidelines. rewrite H. reflexivity.
Qed.

(** An expired entry of a successful fetch at time 1000, a request one
    freshness window later, and a request that times out. *)
Lemma get_failed_fetch_overwrites_entry_witness :
  fresh {| guidelinesCache := Some liveDoc; cacheTimestamp := Some 1000 |}
        (1000 + CACHE_DURATION) = None
  /\ get {| guidelinesCache := Some liveDoc; cacheTimestamp := Some 1000 |}
         (1000 + CACHE_DURATION) (1200 + CACHE_DURATION)
         (HttpThrew "timeout of 10000ms exceeded")
     = (Resolved {| doc := fallbackDoc (1200 + CACHE_DURATION);
                    cached := None; cacheAge := None; stale := None |},
        {| guidelinesCache := Some (fallbackDoc (1200 + CACHE_DURATION));
           cacheTimestamp := Some (1000 + CACHE_DURATION) |}).
Proof.
  split.
  - reflexivity.
  - apply (get_failed_fetch_overwrites_entry
             {| guidelinesCache := Some liveDoc; cacheTimestamp := Some 1000 |}
             (1000 + CACHE_DURATION) (1200 + CACHE_DURATION)
             "timeout of 10000ms exceeded").
    reflexivity.
Defined.

(** C3.  What the refresh handler does with the repository's fetcher: it
    answers 200 "Guidelines refreshed" whatever the outbound request did
    and stores the fetcher's document in the cache.  When the request
    failed, that document is the built-in one: no failure reaches the
    caller, and the fallback replaces the cached entry. *)
Theorem forceRefresh_failed_fetch_reports_success
    (st : Cache) (clock nowAfter : Z) (http : HttpOutcome) :
  exists body,
    forceRefresh st clock http nowAfter
    = (Ok200 body,
       {| guidelinesCache := Some (refreshed body);
          cacheTimestamp := Some nowAfter |})
    /\ message body = "Guidelines refreshed"
    /\ match http with
       | HttpThrew _ => refreshed body = fallbackDoc clock
       | HttpLoaded _ => error (refreshed body) = None
       end.
Proof.
  unfold forceRefresh.
  destruct (fetch_resolves clock http) as [g E].
  exists {| message := "Guidelines refreshed"; refreshed := g |}.
  rewrite E. cbn [refreshHandler refreshed message].
  split; [reflexivity |]. split; [reflexivity |].
  destruct http as [msg | els]; cbn [fetchAppleGuidelines] in E;
    injection E as <-; reflexivity.
Qed.

(** *** Timestamps of successive fills *)

Lemma fresh_emptyCache (now : Z) : fresh emptyCache now = None.
Proof. reflexivity. Qed.

(** C8.  Two requests that overlap on the event loop: a cache miss reads
    [now = t1] and waits for its fetch, a forced refresh stores [t2 > t1],
    then the miss stores its old [now].  The clock never went back, yet the
    stored timestamp goes from [t2] back to [t1]. *)
Theorem overlapping_fills_regress
    (t1 t2 c1 c2 : Z) (http1 http2 : HttpOutcome) :
  t1 < t2 ->
  let trace := [ GetBegin 0 t1;
                 RefreshSettle (fetchAppleGuidelines c2 http2) t2;
                 GetSettle 0 (fetchAppleGuidelines c1 http1) ] in
  nondecreasing (readings trace)
  /\ fst (turns emptyLoop trace) = [t2; t1]
  /\ cacheTimestamp (cache (snd (turns emptyLoop trace))) = Some t1.
Proof.
  intros Hlt trace. subst trace.
  destruct (fetch_resolves c1 http1) as [g1 E1].
  destruct (fetch_resolves c2 http2) as [g2 E2].
  rewrite E1, E2. cbn.
  split; [| split; reflexivity].
  split.
  - intros y [<- | []]. lia.
  - split; [intros y [] | exact I].
Qed.

Lemma overlapping_fills_regress_witness :
  100 < 110
  /\ let trace := [ GetBegin 0 100;
                    RefreshSettle (fetchAppleGuidelines 110 livePage) 110;
                    GetSettle 0 (fetchAppleGuidelines 120 livePage) ] in
     nondecreasing (readings trace)
     /\ fst (turns emptyLoop trace) = [110; 100]
     /\ cacheTimestamp (cache (snd (turns emptyLoop trace))) = Some 100.
Proof.
  split.
  - lia.
  - apply (overlapping_fills_regress 100 110 120 110 livePage livePage). lia.
Defined.

(** A [getCachedGuidelines] call whose two turns run back to back is the
    function [getCachedGuidelines]. *)
Lemma get_turns_atomic (l : Loop) (id : nat) (now : Z) (fetched : Result GuidelineDoc) :
  pending l = [] ->
  snd (turns l (op_turns id (OpGet now fetched)))
  = {| cache := snd (getCachedGuidelines (cache l) now fetched); pending := [] |}.
Proof.
  intros Hp. destruct l as [st p]. cbn in Hp. subst p.
  unfold getCachedGuidelines. cbn.
  destruct (fresh st now) as [[g ts]|] eqn:F; cbn.
  - reflexivity.
  - rewrite Nat.eqb_refl. reflexivity.
Qed.

(** One operation that runs without overlap stores at most one timestamp,
    the clock reading of that operation. *)
Lemma op_turns_fill (o : Op) (id : nat) (l : Loop) (rest : list Turn) :
  pending l = [] ->
  exists (f : option Z) (l' : Loop),
    pending l' = []
    /\ (f = None \/ f = Some (op_reading o))
    /\ fst (turns l (op_turns id o ++ rest)%list)
       = match f with
         | Some z => z :: fst (turns l' rest)
         | None => fst (turns l' rest)
         end.
Proof.
  intros Hp. destruct l as [st p]. cbn in Hp. subst p.
  destruct o as [now fetched | fetched nowAfter]; cbn.
  - destruct (fresh st now) as [[g ts]|] eqn:F; cbn.
    + exists None, {| cache := st; pending := [] |}.
      destruct (turns {| cache := st; pending := [] |} rest) as [fs l''].
      cbn. auto.
    + rewrite Nat.eqb_refl. cbn.
      destruct fetched as [g | e]; cbn.
      * exists (Some now),
          {| cache := {| guidelinesCache := Some g; cacheTimestamp := Some now |};
             pending := [] |}.
        destruct (turns _ rest) as [fs l'']. cbn. auto.
      * exists None.
        destruct (guidelinesCache st) as [g|] eqn:G; cbn.
        -- exists {| cache := st; pending := [] |}.
           destruct (turns _ rest) as [fs l'']. cbn. auto.
        -- exists {| cache := st; pending := [] |}.
           destruct (turns _ rest) as [fs l'']. cbn. auto.
  - destruct fetched as [g | e]; cbn.
    + exists (Some nowAfter),
        {| cache := {| guidelinesCache := Some g; cacheTimestamp := Some nowAfter |};
           pending := [] |}.
      destruct (turns _ rest) as [fs l'']. cbn. auto.
    + exists None, {| cache := st; pending := [] |}.
      destruct (turns _ rest) as [fs l'']. cbn. auto.
Qed.

Lemma sequential_fills_are_readings (os : list Op) :
  forall (id : nat) (l : Loop) (z : Z),
    pending l = [] ->
    In z (fst (turns l (ops_turns id os))) ->
    In z (map op_reading os).
Proof.
  induction os as [| o os IH]; intros id l z Hp Hin.
  - cbn in Hin. contradiction.
  - cbn [ops_turns] in Hin.
    destruct (op_turns_fill o id l (ops_turns (S id) os) Hp)
      as (f & l' & Hp' & Hf & E).
    rewrite E in Hin. cbn [map].
    destruct Hf as [-> | ->].
    + right. eapply IH; eauto.
    + destruct Hin as [<- | Hin]; [left; reflexivity |].
      right. eapply IH; eauto.
Qed.

(** Without overlap the stored timestamps never regress when the clock
    does not: operations that run one after the other, each reading a clock
    that is at least the previous reading, store non-decreasing
    timestamps. *)
Lemma sequential_fills_nondecreasing (os : list Op) :
  forall (id : nat) (l : Loop),
    pending l = [] ->
    nondecreasing (map op_reading os) ->
    nondecreasing (fst (turns l (ops_turns id os))).
Proof.
  induction os as [| o os IH]; intros id l Hp Hnd.
  - exact I.
  - cbn [ops_turns].
    destruct (op_turns_fill o id l (ops_turns (S id) os) Hp)
      as (f & l' & Hp' & Hf & E).
    rewrite E. cbn [map nondecreasing] in Hnd. destruct Hnd as [Hle Hnd].
    destruct Hf as [-> | ->].
    + apply IH; assumption.
    + split.
      * intros y Hy. apply Hle.
        eapply sequential_fills_are_readings; eauto.
      * apply IH; assumption.
Qed.

(** ** The scan upload handler and the guidelines *)

(** With the repository's fetcher the cache call of the upload handler
    always resolves, and the handler answers with a report. *)
Lemma scanUpload_afterScan_resolves
    (f : UploadedFile) (result : GreenlightResult) (parse : ParseOutcome)
    (timestamp : Z) (st : Cache) (now clock : Z) (http : HttpOutcome) :
  exists s st',
    get st now clock http = (Resolved s, st')
    /\ scanUpload_afterScan f result parse timestamp st now
                            (fetchAppleGuidelines clock http)
       = (Ok200 {| body_scanId := scanId f;
                   body_timestamp := timestamp;
                   body_fileName := originalname f;
                   body_fileSize := size f;
                   results := scanResultsOf result parse;
                   guidelines := s |}, st').
Proof.
  destruct (fetch_resolves clock http) as [g E].
  unfold get, scanUpload_afterScan. rewrite E.
  destruct (getCached_resolved_fetch st now g) as (s & st' & H & _).
  exists s, st'. rewrite H. split; reflexivity.
Qed.


(** ** Normalisation of the scanner output *)

(** C4, as stated, fails: output that parses as JSON is passed on as
    parsed, so the output [42] becomes the number [42], which keeps no raw
    text and has no status; and output that is not JSON becomes an object
    without [status] and without [findings]. *)
Lemma scanResults_not_marked_unknown :
  scanResultsOf numberResult (Parsed (JNum 42)) = JNum 42
  /\ field "status" (scanResultsOf numberResult (Parsed (JNum 42))) = None
  /\ field "rawOutput" (scanResultsOf numberResult (Parsed (JNum 42))) = None
  /\ field "unparsed" (scanResultsOf numberResult (Parsed (JNum 42))) = None
  /\ field "status" (scanResultsOf crashResult SyntaxError) <> Some (JStr "UNKNOWN")
  /\ field "findings" (scanResultsOf crashResult SyntaxError) <> Some (JArr []).
Proof.
  repeat split; try reflexivity; discriminate.
Qed.

(** C4, amended.  The normalisation step of the scan handlers is total.
    Output that [JSON.parse] accepts is passed on as parsed, whatever its
    shape.  Output that it rejects becomes an object of exactly three
    properties, with the raw text kept under [rawOutput] next to [stderr]
    and [exitCode]; it has no [status] and no [findings] property. *)
Theorem scanResultsOf_total (result : GreenlightResult) (parse : ParseOutcome) :
  exists v,
    scanResultsOf result parse = v
    /\ match parse with
       | Parsed parsed => v = parsed
       | SyntaxError =>
           field "rawOutput" v = Some (JStr (stdout result))
           /\ field "stderr" v = Some (JStr (stderr result))
           /\ field "exitCode" v = Some (JNum (exitCode result))
           /\ (forall k, k <> "rawOutput" -> k <> "stderr" -> k <> "exitCode" ->
               field k v = None)
           /\ field "status" v = None
           /\ field "findings" v = None
           /\ findingsOf v = []
       end.
Proof.
  exists (scanResultsOf result parse). split; [reflexivity |].
  destruct parse as [parsed |]; [reflexivity |].
  cbn [scanResultsOf].
  split; [reflexivity |].
  split; [reflexivity |].
  split; [reflexivity |].
  split; [| repeat split; reflexivity].
  intros k H1 H2 H3. cbn [field assoc].
  assert (E1 : String.eqb "rawOutput" k = false) by (apply String.eqb_neq; congruence).
  assert (E2 : String.eqb "stderr" k = false) by (apply String.eqb_neq; congruence).
  assert (E3 : String.eqb "exitCode" k = false) by (apply String.eqb_neq; congruence).
  rewrite E1, E2, E3. reflexivity.
Qed.

(** C5, as stated, fails: a structured output that reports no critical
    issue and lists one critical finding is passed on with the reported
    counts; nothing recomputes them from the findings. *)
Lemma reported_counts_not_recomputed :
  let normalized := scanResultsOf mismatchedResult (Parsed mismatchedOutput) in
  findingsOf normalized <> []
  /\ severityTally (findingsOf normalized)
     = {| critical := 1; warnings := 0; info := 0 |}
  /\ summaryCounts normalized = {| critical := 0; warnings := 0; info := 0 |}
  /\ topCounts normalized = {| critical := 0; warnings := 0; info := 0 |}
  /\ summaryCounts normalized <> severityTally (findingsOf normalized)
  /\ topCounts normalized <> severityTally (findingsOf normalized).
Proof.
  cbv zeta. repeat split; try reflexivity; discriminate.
Qed.

(** C5, amended.  Structured scanner output is passed on unchanged: the
    counts of the result are the counts the scanner reported and the
    findings are the findings it listed, without validation of one against
    the other; passing the result through the step again changes nothing;
    and the request is answered with a report. *)
Theorem structured_output_passed_unchanged
    (result result' : GreenlightResult) (v : json) :
  let normalized := scanResultsOf result (Parsed v) in
  summaryCounts normalized = summaryCounts v
  /\ topCounts normalized = topCounts v
  /\ findingsOf normalized = findingsOf v
  /\ scanResultsOf result' (Parsed normalized) = normalized
  /\ (forall f timestamp st now clock http,
        exists body st',
          scanUpload_afterScan f result (Parsed v) timestamp st now
                               (fetchAppleGuidelines clock http)
          = (Ok200 body, st')
          /\ results body = v).
Proof.
  cbv zeta. cbn [scanResultsOf].
  repeat split.
  intros f timestamp st now clock http.
  destruct (scanUpload_afterScan_resolves f result (Parsed v) timestamp st now clock http)
    as (s & st' & _ & Hresp).
  eexists; exists st'. split; [exact Hresp | reflexivity].
Qed.

(** ** Enrichment *)

Lemma assoc_set_prop_other (k k' : string) (v : json) (f : Finding) :
  k' <> k -> assoc k' (set_prop k v f) = assoc k' f.
Proof.
  intros Hne. induction f as [| [k0 v0] rest IH]; cbn [set_prop assoc].
  - destruct (String.eqb_spec k k'); [congruence | reflexivity].
  - destruct (String.eqb_spec k0 k) as [-> | Hk0]; cbn [assoc].
    + destruct (String.eqb_spec k k'); [congruence | reflexivity].
    + destruct (String.eqb_spec k0 k'); [reflexivity | exact IH].
Qed.

Lemma without_fix_set_prop (v : json) (f : Finding) :
  without_fix (set_prop "fixSuggestion" v f) = without_fix f.
Proof.
  unfold without_fix.
  induction f as [| [k0 v0] rest IH]; cbn [set_prop filter fst].
  - reflexivity.
  - destruct (String.eqb_spec k0 "fixSuggestion") as [-> | Hk0];
      cbn [filter fst negb].
    + reflexivity.
    + destruct (String.eqb_spec k0 "fixSuggestion"); [congruence |].
      cbn [negb]. f_equal. exact IH.
Qed.

Lemma enriched_from_frame (f f' : Finding) :
  enriched_from f f' ->
  without_fix f' = without_fix f
  /\ forall k, k <> "fixSuggestion" -> assoc k f' = assoc k f.
Proof.
  intros [-> | [t ->]].
  - split; [reflexivity | intros; reflexivity].
  - split; [apply without_fix_set_prop |].
    intros k Hk. apply assoc_set_prop_other. exact Hk.
Qed.

Lemma Forall2_enriched_refl (fs : list Finding) : Forall2 enriched_from fs fs.
Proof.
  induction fs; constructor; [left; reflexivity | assumption].
Qed.

Lemma fix_loop_enriched (reply : nat -> option string) (fs : list Finding) :
  forall i, Forall2 enriched_from fs (fix_loop reply i fs).
Proof.
  induction fs as [| f rest IH]; intros i; cbn [fix_loop]; constructor.
  - destruct (reply i) as [t |]; [right; eexists; reflexivity | left; reflexivity].
  - apply IH.
Qed.

Lemma Forall2_enriched_frame (fs fs' : list Finding) :
  Forall2 enriched_from fs fs' ->
  List.length fs' = List.length fs
  /\ map without_fix fs' = map without_fix fs
  /\ forall k, k <> "fixSuggestion" -> map (assoc k) fs' = map (assoc k) fs.
Proof.
  induction 1 as [| f f' fs fs' Hf _ (IHlen & IHwf & IHk)].
  - repeat split; reflexivity.
  - destruct (enriched_from_frame f f' Hf) as [Hwf Hk].
    split; [cbn; congruence |].
    split; [cbn; congruence |].
    intros k Hne. cbn. rewrite (Hk k Hne), (IHk k Hne). reflexivity.
Qed.

Lemma generateFixSuggestions_enriched (w : FixWorld) (fs : list Finding) :
  exists fs', generateFixSuggestions w fs = Resolved fs'
              /\ Forall2 enriched_from fs fs'.
Proof.
  unfold generateFixSuggestions.
  destruct (negb (truthy_opt (fix_apiKey w))).
  - exists fs. split; [reflexivity | apply Forall2_enriched_refl].
  - destruct (fix_clientThrows w).
    + exists fs. split; [reflexivity | apply Forall2_enriched_refl].
    + eexists. split; [reflexivity | apply fix_loop_enriched].
Qed.

Example generateFixSuggestions_firstReplyOnly :
  generateFixSuggestions firstReplyOnly [findingA; findingB]
  = Resolved [ findingA ++ [("fixSuggestion", JStr "Remove the private framework.")];
               findingB ]%list.
Proof. reflexivity. Qed.

(** ** Layout of the PDF report *)

#[local] Open Scope list_scope.

Example layout_twoLongFindings :
  generateCompliancePDF wrappedHeight twoLongFindings
  = [ firstPage; [(350, BFooter)] ].
Proof. vm_compute. reflexivity. Qed.

Lemma allBlocks_app (ps qs : list Page) :
  allBlocks (ps ++ qs) = (allBlocks ps ++ allBlocks qs)%list.
Proof.
  unfold allBlocks. rewrite map_app. apply concat_app.
Qed.

Lemma writtenBlocks_place (b : Block) (hb : Z) (d : Doc) :
  writtenBlocks (place b hb d) = (writtenBlocks d ++ [b])%list.
Proof.
  unfold writtenBlocks, place. cbn [finished current].
  rewrite !allBlocks_app. unfold allBlocks, pageBlocks. cbn [map List.concat].
  rewrite map_app, !app_nil_r. cbn [map snd]. rewrite app_assoc. reflexivity.
Qed.

Lemma writtenBlocks_addPage (top : Z) (d : Doc) :
  writtenBlocks (addPage top d) = writtenBlocks d.
Proof.
  unfold writtenBlocks, addPage. cbn [finished current].
  rewrite allBlocks_app. unfold allBlocks at 2. cbn. apply app_nil_r.
Qed.

Lemma writtenBlocks_breakIfBeyond (limit : Z) (d : Doc) :
  writtenBlocks (breakIfBeyond limit d) = writtenBlocks d.
Proof.
  unfold breakIfBeyond. destruct (y d >? limit);
    [apply writtenBlocks_addPage | reflexivity].
Qed.

Lemma shownFindings_app (bs cs : list Block) :
  shownFindings (bs ++ cs) = (shownFindings bs ++ shownFindings cs)%list.
Proof.
  induction bs as [| b bs IH]; [reflexivity |].
  destruct b; cbn; rewrite ?IH; reflexivity.
Qed.

Lemma shownFindings_findingBlocks (fs : list Finding) :
  forall i, shownFindings (findingBlocks i fs) = fs.
Proof.
  induction fs as [| f fs IH]; intros i; cbn; [| rewrite IH]; reflexivity.
Qed.

Lemma shownFindings_recBlocks (rs : list Recommendation) :
  forall i, shownFindings (recBlocks i rs) = [].
Proof.
  induction rs as [| r rs IH]; intros i; cbn; [reflexivity | apply IH].
Qed.

Lemma shownFindings_documentBlocks (scan : ScanResults) :
  shownFindings (documentBlocks scan) = findingsList scan.
Proof.
  unfold documentBlocks. rewrite !shownFindings_app.
  rewrite shownFindings_findingBlocks.
  unfold summaryBlock.
  destruct (summary scan); destruct (riskOf scan); destruct (recsOf scan); cbn;
    rewrite ?shownFindings_recBlocks, ?app_nil_r; reflexivity.
Qed.

Lemma placedFrom_snoc_iff (measure : Z -> string -> Z -> Z) (p : Page) :
  forall top at_y b,
    placedFrom measure top (p ++ [(at_y, b)])
    <-> placedFrom measure top p
        /\ at_y = top + sumHeights measure (pageBlocks p).
Proof.
  induction p as [| [y0 b0] p IH]; intros top at_y b.
  - cbn. split; [intros [-> _]; split; [exact I | lia]
                | intros [_ ->]; split; [lia | exact I]].
  - cbn [app placedFrom]. rewrite IH.
    change (sumHeights measure (pageBlocks ((y0, b0) :: p)))
      with (blockHeight measure b0 + sumHeights measure (pageBlocks p)).
    split.
    + intros (-> & Hp & ->). repeat split; [assumption | lia].
    + intros ((-> & Hp) & ->). repeat split; [assumption | lia].
Qed.

Lemma placedFrom_middle (measure : Z -> string -> Z -> Z) (pre : Page) :
  forall top at_y b post,
    placedFrom measure top (pre ++ (at_y, b) :: post) ->
    at_y = top + sumHeights measure (pageBlocks pre).
Proof.
  induction pre as [| [y0 b0] pre IH]; intros top at_y b post.
  - cbn. intros [-> _]. lia.
  - cbn [app placedFrom].
    change (sumHeights measure (pageBlocks ((y0, b0) :: pre)))
      with (blockHeight measure b0 + sumHeights measure (pageBlocks pre)).
    intros [-> H]. apply IH in H. lia.
Qed.

Section LayoutProofs.

Variable heightOfString : Z -> string -> Z -> Z.

(** *** Order of the blocks *)

Lemma writtenBlocks_put (b : Block) (d : Doc) :
  writtenBlocks (put heightOfString b d) = (writtenBlocks d ++ [b])%list.
Proof. apply writtenBlocks_place. Qed.

Lemma writtenBlocks_layoutFindings (fs : list Finding) :
  forall i d,
    writtenBlocks (layoutFindings heightOfString i fs d)
    = (writtenBlocks d ++ findingBlocks i fs)%list.
Proof.
  induction fs as [| f fs IH]; intros i d; cbn.
  - symmetry. apply app_nil_r.
  - rewrite IH.
    rewrite writtenBlocks_put, writtenBlocks_breakIfBeyond.
    rewrite <- app_assoc. reflexivity.
Qed.

Lemma writtenBlocks_layoutRecs (rs : list Recommendation) :
  forall i d,
    writtenBlocks (layoutRecs heightOfString i rs d) = (writtenBlocks d ++ recBlocks i rs)%list.
Proof.
  induction rs as [| r rs IH]; intros i d; cbn.
  - symmetry. apply app_nil_r.
  - rewrite IH.
    rewrite writtenBlocks_put, writtenBlocks_breakIfBeyond.
    rewrite <- app_assoc. reflexivity.
Qed.

Lemma writtenBlocks_layoutBody (scan : ScanResults) :
  (writtenBlocks (layoutBody heightOfString scan) ++ [BFooter])%list
  = documentBlocks scan.
Proof.
  unfold layoutBody, layoutRecommendations, layoutRisk, documentBlocks.
  destruct (recsOf scan) as [rs |]; destruct (riskOf scan) as [r |];
    rewrite ?writtenBlocks_layoutRecs, ?writtenBlocks_put,
            ?writtenBlocks_breakIfBeyond, ?writtenBlocks_layoutFindings,
            ?writtenBlocks_put;
    cbn [writtenBlocks finished current allBlocks app map List.concat pageBlocks];
    rewrite <- ?app_assoc; reflexivity.
Qed.

Lemma generateCompliancePDF_pages (scan : ScanResults) :
  generateCompliancePDF heightOfString scan
  = ((finished (layoutBody heightOfString scan)
      ++ [current (layoutBody heightOfString scan)])
     ++ [[(350, BFooter)]])%list.
Proof. reflexivity. Qed.

(** C9.  The blocks of the pages written by [generateCompliancePDF], read
    in page order, are the blocks of the report in document order, none
    lost, repeated or moved; in particular the findings are shown in the
    order of [scanResults.findings]. *)
Theorem rendering_preserves_order (scan : ScanResults) :
  allBlocks (generateCompliancePDF heightOfString scan) = documentBlocks scan
  /\ shownFindings (allBlocks (generateCompliancePDF heightOfString scan))
     = findingsList scan.
Proof.
  assert (E : allBlocks (generateCompliancePDF heightOfString scan)
              = documentBlocks scan).
  { rewrite generateCompliancePDF_pages, allBlocks_app.
    rewrite <- writtenBlocks_layoutBody. reflexivity. }
  split; [exact E |].
  rewrite E. apply shownFindings_documentBlocks.
Qed.

(** *** Page breaks *)

Lemma sumHeights_snoc (bs : list Block) (b : Block) :
  sumHeights heightOfString (bs ++ [b])
  = sumHeights heightOfString bs + blockHeight heightOfString b.
Proof.
  induction bs as [| b0 bs IH]; cbn.
  - lia.
  - unfold sumHeights in IH. rewrite IH. lia.
Qed.

Lemma flowWithin_snoc (limit at_y : Z) (b : Block) (p : Page) :
  flowWithin limit p ->
  (isFlow b = true -> at_y <= limit) ->
  flowWithin limit (p ++ [(at_y, b)]).
Proof.
  intros Hp Hb y0 b0 Hin Hflow.
  apply in_app_or in Hin. destruct Hin as [Hin | [[= <- <-] | []]].
  - exact (Hp y0 b0 Hin Hflow).
  - exact (Hb Hflow).
Qed.

Lemma paged_put (b : Block) (d : Doc) :
  paged heightOfString d ->
  (isFlow b = true -> y d <= 700) ->
  paged heightOfString (put heightOfString b d).
Proof.
  intros (Hfin & Hcur & Hy & Hwfin & Hwcur) Hb.
  unfold paged, put, place. cbn [finished current y].
  split; [exact Hfin |].
  split; [apply placedFrom_snoc_iff; split; assumption |].
  split.
  - unfold pageBlocks. rewrite map_app. cbn [map snd].
    rewrite sumHeights_snoc. unfold pageBlocks in Hy. lia.
  - split; [exact Hwfin |].
    apply flowWithin_snoc; assumption.
Qed.

Lemma paged_addPage (d : Doc) :
  paged heightOfString d -> paged heightOfString (addPage 50 d).
Proof.
  intros (Hfin & Hcur & Hy & Hwfin & Hwcur).
  unfold paged, addPage. cbn [finished current y].
  split; [apply Forall_app; split; [exact Hfin | constructor; [exact Hcur | constructor]] |].
  split; [exact I |].
  split; [reflexivity |].
  split; [apply Forall_app; split; [exact Hwfin | constructor; [exact Hwcur | constructor]] |].
  intros y0 b0 [].
Qed.

Lemma paged_breakIfBeyond (limit : Z) (d : Doc) :
  50 <= limit ->
  paged heightOfString d ->
  paged heightOfString (breakIfBeyond limit d)
  /\ y (breakIfBeyond limit d) <= limit.
Proof.
  intros Hlim Hd. unfold breakIfBeyond.
  destruct (Z.gtb_spec (y d) limit) as [Hgt | Hle].
  - split; [apply paged_addPage; exact Hd | exact Hlim].
  - split; [exact Hd | exact Hle].
Qed.

Lemma paged_break_put (limit : Z) (b : Block) (d : Doc) :
  50 <= limit <= 700 ->
  paged heightOfString d ->
  paged heightOfString (put heightOfString b (breakIfBeyond limit d)).
Proof.
  intros [Hlo Hhi] Hd.
  destruct (paged_breakIfBeyond limit d Hlo Hd) as [Hp Hy].
  apply paged_put; [exact Hp | intros _; lia].
Qed.

Lemma paged_layoutFindings (fs : list Finding) :
  forall i d, paged heightOfString d -> paged heightOfString (layoutFindings heightOfString i fs d).
Proof.
  induction fs as [| f fs IH]; intros i d Hd; cbn.
  - exact Hd.
  - apply IH. apply paged_break_put; [lia | exact Hd].
Qed.

Lemma paged_layoutRecs (rs : list Recommendation) :
  forall i d, paged heightOfString d -> paged heightOfString (layoutRecs heightOfString i rs d).
Proof.
  induction rs as [| r rs IH]; intros i d Hd; cbn.
  - exact Hd.
  - apply IH. apply paged_break_put; [lia | exact Hd].
Qed.

Lemma paged_layoutBody (scan : ScanResults) :
  paged heightOfString (layoutBody heightOfString scan).
Proof.
  unfold layoutBody, layoutRecommendations, layoutRisk.
  assert (H0 : paged heightOfString {| finished := []; current := []; y := 50 |}).
  { unfold paged. cbn. repeat split; try constructor. intros y0 b0 []. }
  assert (H2 : paged heightOfString
                 (put heightOfString (summaryBlock scan)
                      (put heightOfString BHeader {| finished := []; current := []; y := 50 |}))).
  { apply paged_put; [apply paged_put; [exact H0 | discriminate] |].
    unfold summaryBlock. destruct (summary scan); discriminate. }
  assert (H5 : forall d, paged heightOfString d ->
                 paged heightOfString
                   (layoutFindings heightOfString 0 (findingsList scan) (put heightOfString BFindingsHeading d))).
  { intros d Hd. apply paged_layoutFindings. apply paged_put; [exact Hd | discriminate]. }
  destruct (riskOf scan) as [r |]; destruct (recsOf scan) as [rs |];
    repeat first
      [ exact H2
      | apply paged_layoutRecs
      | apply paged_break_put; [lia |]
      | apply H5
      | apply paged_put; [| discriminate] ].
Qed.

(** C1, amended.  Before each finding, each recommendation and the
    recommendations heading, [generateCompliancePDF] compares the cursor
    alone with its limit (700, or 650 for the heading) and opens a new page
    at cursor 50 when the cursor is beyond it.  So on every page each such
    block starts at a cursor of at most 700, which is 50 plus the summed
    heights of the blocks before it on the page: the blocks before it take
    at most 650 points, and a page runs beyond the limit by its last block
    only. *)
Theorem flow_blocks_start_within_limit
    (scan : ScanResults) (p pre post : Page) (at_y : Z) (b : Block) :
  In p (generateCompliancePDF heightOfString scan) ->
  p = pre ++ (at_y, b) :: post ->
  isFlow b = true ->
  at_y <= 700
  /\ at_y = 50 + sumHeights heightOfString (pageBlocks pre)
  /\ sumHeights heightOfString (pageBlocks pre) <= 650.
Proof.
  intros Hin Hp Hflow.
  destruct (paged_layoutBody scan) as (Hfin & Hcur & _ & Hwfin & Hwcur).
  rewrite generateCompliancePDF_pages in Hin.
  assert (Hpage : placedFrom heightOfString 50 p /\ flowWithin 700 p).
  { apply in_app_or in Hin. destruct Hin as [Hin | [<- | []]].
    - apply in_app_or in Hin. destruct Hin as [Hin | [<- | []]].
      + rewrite Forall_forall in Hfin, Hwfin. split; auto.
      + split; assumption.
    - exfalso. destruct pre as [| x [| x' pre]]; cbn in Hp.
      + injection Hp as _ <- _. discriminate.
      + discriminate.
      + discriminate. }
  destruct Hpage as [Hplaced Hwithin]. subst p.
  assert (Hy : at_y <= 700).
  { apply (Hwithin at_y b); [apply in_elt | exact Hflow]. }
  apply placedFrom_middle in Hplaced.
  repeat split; [exact Hy | exact Hplaced | lia].
Qed.

End LayoutProofs.

Lemma flow_blocks_start_within_limit_witness :
  In firstPage (generateCompliancePDF wrappedHeight twoLongFindings)
  /\ 693 <= 700
  /\ 693 = 50 + sumHeights wrappedHeight (pageBlocks (firstn 4 firstPage))
  /\ sumHeights wrappedHeight (pageBlocks (firstn 4 firstPage)) <= 650.
Proof.
  split.
  - vm_compute. left. reflexivity.
  - apply (flow_blocks_start_within_limit wrappedHeight twoLongFindings
             firstPage (firstn 4 firstPage) []
             693 (BFinding 1 (longFinding "Second"))).
    + vm_compute. left. reflexivity.
    + reflexivity.
    + reflexivity.
Defined.

(** C1, as stated, fails: with two findings of 348 points each, the second
    is placed at cursor 693 on the first page, because 693 is not beyond
    700, and ends at 1041.  The blocks of that page sum to 991 points, more
    than the 650 points between the top margin and the limit and more than
    a whole page of 792 points, while no block of the page is higher than
    348 points. *)
Lemma page_overflows_without_oversized_block :
  In firstPage (generateCompliancePDF wrappedHeight twoLongFindings)
  /\ sumHeights wrappedHeight (pageBlocks firstPage) = 991
  /\ 50 + sumHeights wrappedHeight (pageBlocks firstPage) > 700
  /\ Forall (fun b => blockHeight wrappedHeight b <= 348) (pageBlocks firstPage)
  /\ ~ (sumHeights wrappedHeight (pageBlocks firstPage) <= 700
        \/ exists b, In b (pageBlocks firstPage)
                     /\ blockHeight wrappedHeight b > 700).
Proof.
  assert (Hall : Forall (fun b => blockHeight wrappedHeight b <= 348)
                        (pageBlocks firstPage)).
  { repeat constructor; vm_compute; discriminate. }
  split; [vm_compute; left; reflexivity |].
  split; [vm_compute; reflexivity |].
  split; [vm_compute; reflexivity |].
  split; [exact Hall |].
  intros [Hsum | (b & Hin & Hb)].
  - vm_compute in Hsum. apply Hsum. reflexivity.
  - rewrite Forall_forall in Hall. specialize (Hall b Hin). lia.
Qed.

(* ================================================================== *)
(** * Further properties of the code *)
(* ================================================================== *)

#[local] Open Scope Z_scope.

(** ** The scraping loop *)

Lemma scrape_origin (els : list (string * string)) :
  forall (i : nat) (s : GuidelineSection),
    In s (scrape i els) ->
    (i < section s <= i + List.length els)%nat
    /\ truthy (title s) = true
    /\ truthy (content s) = true
    /\ exists h2 p,
         nth_error els (section s - 1 - i) = Some (h2, p)
         /\ title s = trim h2 /\ content s = trim p.
Proof.
  induction els as [| [h2 p] rest IH]; intros i s Hin; cbn [scrape] in Hin.
  - contradiction.
  - assert (Hrest : In s (scrape (S i) rest) ->
                    (i < section s <= i + List.length ((h2, p) :: rest))%nat
                    /\ truthy (title s) = true
                    /\ truthy (content s) = true
                    /\ exists h2' p',
                         nth_error ((h2, p) :: rest) (section s - 1 - i) = Some (h2', p')
                         /\ title s = trim h2' /\ content s = trim p').
    { intros H. destruct (IH (S i) s H) as (Hb & Ht & Hc & h2' & p' & Hn & E1 & E2).
      cbn [List.length]. split; [lia |]. split; [exact Ht |]. split; [exact Hc |].
      exists h2', p'. split; [| split; assumption].
      replace (section s - 1 - i)%nat with (S (section s - 1 - S i)) by lia.
      exact Hn. }
    destruct (truthy (trim h2) && truthy (trim p))%bool eqn:E.
    + destruct Hin as [<- | Hin]; [| exact (Hrest Hin)].
      apply andb_prop in E. destruct E as [Et Ec]. cbn [section title content List.length].
      split; [lia |]. split; [exact Et |]. split; [exact Ec |].
      exists h2, p. replace (i + 1 - 1 - i)%nat with 0%nat by lia.
      repeat split; reflexivity.
    + exact (Hrest Hin).
Qed.

Lemma scrape_increasing (els : list (string * string)) :
  forall i, increasing (map section (scrape i els)).
Proof.
  induction els as [| [h2 p] rest IH]; intros i; cbn [scrape].
  - exact I.
  - destruct (truthy (trim h2) && truthy (trim p))%bool.
    + cbn [map increasing section]. split; [| apply IH].
      intros y Hy. apply in_map_iff in Hy. destruct Hy as (s & <- & Hs).
      apply scrape_origin in Hs. lia.
    + apply IH.
Qed.

Lemma scrape_length (els : list (string * string)) :
  forall i, (List.length (scrape i els) <= List.length els)%nat.
Proof.
  induction els as [| [h2 p] rest IH]; intros i; cbn [scrape List.length].
  - lia.
  - destruct (truthy (trim h2) && truthy (trim p))%bool; cbn [List.length];
      specialize (IH (S i)); lia.
Qed.

(** X1.  The sections scraped from a page are numbered by the position of
    their element on the page: the numbers grow strictly, each lies between
    1 and the number of elements, and the section numbered [k] holds the
    trimmed heading and paragraph of the [k]-th element, both non-empty.
    Elements without heading or paragraph leave gaps in the numbering. *)
Theorem scraped_sections_numbered_by_element (els : list (string * string)) :
  increasing (map section (scrape 0 els))
  /\ (List.length (scrape 0 els) <= List.length els)%nat
  /\ forall s, In s (scrape 0 els) ->
       (1 <= section s <= List.length els)%nat
       /\ truthy (title s) = true
       /\ truthy (content s) = true
       /\ exists h2 p,
            nth_error els (section s - 1) = Some (h2, p)
            /\ title s = trim h2 /\ content s = trim p.
Proof.
  split; [apply scrape_increasing |].
  split; [apply scrape_length |].
  intros s Hs. apply scrape_origin in Hs.
  destruct Hs as (Hb & Ht & Hc & h2 & p & Hn & E1 & E2).
  split; [lia |]. split; [exact Ht |]. split; [exact Hc |].
  exists h2, p. rewrite Nat.sub_0_r in Hn. repeat split; assumption.
Qed.

Lemma fetch_sections_nonempty (clock : Z) (http : HttpOutcome) (g : GuidelineDoc) :
  fetchAppleGuidelines clock http = Resolved g -> sections g <> [].
Proof.
  destruct http as [msg | els]; cbn [fetchAppleGuidelines]; intros [= <-];
    cbn [sections].
  - discriminate.
  - destruct (nonempty (scrape 0 els)) eqn:E.
    + apply nonempty_true. exact E.
    + discriminate.
Qed.

(** X2.  The caching server's fetcher and the plain server's fetcher read
    the page alike: for every outcome of the request both resolve, with the
    same time and address; the caching one returns the plain one's sections
    when there are any and the five built-in sections otherwise, and both
    set [error] exactly when the request threw. *)
Theorem fetchers_agree_up_to_fallback (clock : Z) (http : HttpOutcome) :
  exists g p,
    fetchAppleGuidelines clock http = Resolved g
    /\ fetchAppleGuidelinesPlain clock http = Resolved p
    /\ lastUpdated g = lastUpdated p
    /\ url g = url p
    /\ sections g = (if nonempty (sections p) then sections p else fallbackGuidelines)
    /\ (error g = None <-> error p = None)
    /\ (error p = None <-> exists els, http = HttpLoaded els).
Proof.
  destruct http as [msg | els]; eexists; eexists;
    (split; [reflexivity |]); (split; [reflexivity |]); cbn.
  - repeat split; try discriminate. intros [els H]. discriminate.
  - repeat split; try reflexivity. intros _. exists els. reflexivity.
Qed.

(** ** Hits and misses of the cache *)

(** X3.  A document stored by a miss is served from the cache for the next
    24 hours: after a miss at [now] that fetched [g], a call at [now'] with
    [now' - now < CACHE_DURATION] resolves to [g] marked [cached], with its
    age in whole minutes, whatever a fetch would have returned, and leaves
    the cache as it is.  (A store at clock reading 0 is never served: a
    timestamp of 0 is falsy.) *)
Theorem get_after_fill_is_cached
    (st : Cache) (now now' : Z) (g : GuidelineDoc) (fetched' : Result GuidelineDoc) :
  fresh st now = None ->
  now <> 0 ->
  now' - now < CACHE_DURATION ->
  let st1 := snd (getCachedGuidelines st now (Resolved g)) in
  st1 = {| guidelinesCache := Some g; cacheTimestamp := Some now |}
  /\ getCachedGuidelines st1 now' fetched'
     = (Resolved {| doc := g;
                    cached := Some true;
                    cacheAge := Some (show_Z ((now' - now) / 1000 / 60) ++ " minutes ago")%string;
                    stale := None |},
        st1).
Proof.
  intros Hmiss Hnz Hage. cbv zeta.
  assert (E : snd (getCachedGuidelines st now (Resolved g))
              = {| guidelinesCache := Some g; cacheTimestamp := Some now |}).
  { unfold getCachedGuidelines. rewrite Hmiss. reflexivity. }
  rewrite E. split; [reflexivity |].
  unfold getCachedGuidelines, fresh. cbn [guidelinesCache cacheTimestamp].
  apply Z.eqb_neq in Hnz. rewrite Hnz.
  apply Z.ltb_lt in Hage. rewrite Hage. reflexivity.
Qed.

Lemma get_after_fill_is_cached_witness :
  let st1 := snd (getCachedGuidelines emptyCache 1000 (Resolved liveDoc)) in
  st1 = {| guidelinesCache := Some liveDoc; cacheTimestamp := Some 1000 |}
  /\ getCachedGuidelines st1 (1000 + 3600000) (Rejected "connect ETIMEDOUT")
     = (Resolved {| doc := liveDoc;
                    cached := Some true;
                    cacheAge := Some "60 minutes ago";
                    stale := None |},
        st1).
Proof.
  apply (get_after_fill_is_cached emptyCache 1000 (1000 + 3600000) liveDoc
           (Rejected "connect ETIMEDOUT")).
  - reflexivity.
  - discriminate.
  - reflexivity.
Defined.

(** X4.  When [/health] reports the guidelines as stale, the next
    [getCachedGuidelines] call does not serve the entry: it fetches. *)
Theorem health_stale_means_refetch (st : Cache) (now : Z) :
  h_stale (h_guidelines (health st now)) = JBool true ->
  fresh st now = None.
Proof.
  unfold health, guidelineAge, isStale, fresh. cbn [h_guidelines h_stale].
  destruct (cacheTimestamp st) as [ts |]; [| discriminate].
  destruct (ts =? 0) eqn:Ets; [discriminate |].
  destruct (now - ts =? 0); [discriminate |].
  intros [= Hgt]. apply Z.gtb_lt in Hgt.
  destruct (guidelinesCache st); [| reflexivity].
  cbn [negb andb].
  destruct (Z.ltb_spec (now - ts) CACHE_DURATION); [lia | reflexivity].
Qed.

Lemma health_stale_means_refetch_witness :
  h_stale (h_guidelines
             (health {| guidelinesCache := Some liveDoc; cacheTimestamp := Some 1000 |}
                     (1001 + CACHE_DURATION))) = JBool true
  /\ fresh {| guidelinesCache := Some liveDoc; cacheTimestamp := Some 1000 |}
           (1001 + CACHE_DURATION) = None.
Proof.
  split.
  - reflexivity.
  - apply (health_stale_means_refetch
             {| guidelinesCache := Some liveDoc; cacheTimestamp := Some 1000 |}
             (1001 + CACHE_DURATION)).
    reflexivity.
Defined.

(** X5.  The two tests differ at the boundary only: when [/health] reports
    the guidelines as not stale and [getCachedGuidelines] fetches all the
    same, either nothing is cached or the entry is exactly 24 hours old
    ([/health] tests [age > CACHE_DURATION], the cache [age <
    CACHE_DURATION]). *)
Theorem health_fresh_but_refetch_only_at_boundary (st : Cache) (now : Z) :
  h_stale (h_guidelines (health st now)) = JBool false ->
  fresh st now = None ->
  guidelinesCache st = None
  \/ cacheTimestamp st = Some (now - CACHE_DURATION).
Proof.
  unfold health, guidelineAge, isStale, fresh. cbn [h_guidelines h_stale].
  destruct (cacheTimestamp st) as [ts |]; [| discriminate].
  destruct (ts =? 0) eqn:Ets; [discriminate |].
  destruct (now - ts =? 0); [discriminate |].
  intros [= Hgt].
  destruct (guidelinesCache st); [| left; reflexivity].
  cbn [negb andb].
  destruct (Z.ltb_spec (now - ts) CACHE_DURATION); [discriminate |].
  intros _. right. f_equal.
  destruct (Z.gtb_spec (now - ts) CACHE_DURATION); [discriminate | lia].
Qed.

Lemma health_fresh_but_refetch_only_at_boundary_witness :
  h_stale (h_guidelines
             (health {| guidelinesCache := Some liveDoc; cacheTimestamp := Some 1000 |}
                     (1000 + CACHE_DURATION))) = JBool false
  /\ fresh {| guidelinesCache := Some liveDoc; cacheTimestamp := Some 1000 |}
           (1000 + CACHE_DURATION) = None
  /\ (guidelinesCache {| guidelinesCache := Some liveDoc; cacheTimestamp := Some 1000 |}
      = None
      \/ cacheTimestamp {| guidelinesCache := Some liveDoc; cacheTimestamp := Some 1000 |}
         = Some (1000 + CACHE_DURATION - CACHE_DURATION)).
Proof.
  split; [reflexivity |]. split; [reflexivity |].
  apply (health_fresh_but_refetch_only_at_boundary
           {| guidelinesCache := Some liveDoc; cacheTimestamp := Some 1000 |}
           (1000 + CACHE_DURATION)); reflexivity.
Defined.

(** ** The cache across the life of the server *)

Lemma turns_cons (l : Loop) (t : Turn) (rest : list Turn) :
  snd (turns l (t :: rest)) = snd (turns (snd (turn l t)) rest).
Proof.
  cbn [turns]. destruct (turn l t) as [f l']. cbn [snd].
  destruct (turns l' rest) as [fs l'']. reflexivity.
Qed.

(** Any property of the cache that the two stores keep is kept by every
    sequence of turns. *)
Lemma turns_cache_invariant (P : Cache -> Prop) (Q : Turn -> Prop) :
  (forall st now fetched,
      P st -> Q (GetSettle 0 fetched) ->
      P (snd (getCached_afterFetch st now fetched))) ->
  (forall st nowAfter fetched,
      P st -> Q (RefreshSettle fetched nowAfter) ->
      P (snd (refreshHandler st fetched nowAfter))) ->
  (forall id id' fetched, Q (GetSettle id fetched) -> Q (GetSettle id' fetched)) ->
  forall ts l, Forall Q ts -> P (cache l) -> P (cache (snd (turns l ts))).
Proof.
  intros Hget Hrefresh Hid.
  induction ts as [| t rest IH]; intros l HQ HP.
  - exact HP.
  - rewrite turns_cons. inversion HQ as [| t' rest' Ht Hrest]; subst.
    apply IH; [exact Hrest |].
    destruct t as [id now | id fetched | fetched nowAfter]; cbn [turn].
    + destruct (fresh (cache l) now); exact HP.
    + destruct (lookup_pending id (pending l)) as [now |]; cbn [snd cache].
      * apply Hget; [exact HP | exact (Hid _ _ _ Ht)].
      * exact HP.
    + cbn [snd cache]. apply Hrefresh; assumption.
Qed.

Lemma Forall_True_turns (ts : list Turn) : Forall (fun _ => True) ts.
Proof. induction ts; constructor; auto. Qed.

(** X6.  [guidelinesCache] and [cacheTimestamp] are set together: after
    any sequence of turns of a server that started with an empty cache,
    whatever the fetches returned and however the requests overlapped,
    either both are [null] or both are set. *)
Theorem cache_variables_set_together (ts : list Turn) :
  paired (cache (snd (turns emptyLoop ts))).
Proof.
  apply (turns_cache_invariant paired (fun _ => True)).
  - intros st now [g | e] HP _; cbn.
    + right. exists g, now. split; reflexivity.
    + destruct (guidelinesCache st); exact HP.
  - intros st nowAfter [g | e] HP _; cbn.
    + right. exists g, nowAfter. split; reflexivity.
    + exact HP.
  - auto.
  - apply Forall_True_turns.
  - left. split; reflexivity.
Qed.

(** X7.  No turn clears the cache: once a document is cached, a document
    stays cached through every later sequence of turns, failed fetches
    included. *)
Theorem cache_never_cleared (l : Loop) (ts : list Turn) :
  guidelinesCache (cache l) <> None ->
  guidelinesCache (cache (snd (turns l ts))) <> None.
Proof.
  intros H.
  apply (turns_cache_invariant (fun st => guidelinesCache st <> None) (fun _ => True)).
  - intros st now [g | e] HP _; cbn.
    + discriminate.
    + destruct (guidelinesCache st) eqn:G; [| contradiction].
      cbn [snd]. rewrite G. discriminate.
  - intros st nowAfter [g | e] HP _; cbn.
    + discriminate.
    + exact HP.
  - auto.
  - apply Forall_True_turns.
  - exact H.
Qed.

Lemma cache_never_cleared_witness :
  guidelinesCache
    (cache (snd (turns {| cache := {| guidelinesCache := Some liveDoc;
                                      cacheTimestamp := Some 1000 |};
                          pending := [] |}
                       [ GetBegin 0 (1000 + CACHE_DURATION);
                         RefreshSettle (Rejected "connect ETIMEDOUT") (1001 + CACHE_DURATION);
                         GetSettle 0 (Rejected "timeout of 10000ms exceeded") ])))
  <> None.
Proof.
  apply (cache_never_cleared
           {| cache := {| guidelinesCache := Some liveDoc; cacheTimestamp := Some 1000 |};
              pending := [] |}).
  discriminate.
Defined.

(** X8.  With the repository's fetcher a cached document always has
    sections: after any sequence of turns whose fetches were made by
    [fetchAppleGuidelines], [/health] never reports a cached document with
    a section count of 0. *)
Theorem cached_document_has_sections (ts : list Turn) (now : Z) :
  Forall fromFetcher ts ->
  let report := h_guidelines (health (cache (snd (turns emptyLoop ts))) now) in
  h_cached report = false \/ (0 < h_sections report)%nat.
Proof.
  intros Hts. cbv zeta.
  assert (Hinv : match guidelinesCache (cache (snd (turns emptyLoop ts))) with
                 | Some g => sections g <> []
                 | None => True
                 end).
  { apply (turns_cache_invariant
             (fun st => match guidelinesCache st with
                        | Some g => sections g <> []
                        | None => True
                        end) fromFetcher).
    - intros st t fetched HP (clock & http & ->).
      destruct (fetch_resolves clock http) as [g E]. rewrite E. cbn.
      eapply fetch_sections_nonempty; eauto.
    - intros st t fetched HP (clock & http & ->).
      destruct (fetch_resolves clock http) as [g E]. rewrite E. cbn.
      eapply fetch_sections_nonempty; eauto.
    - intros id id' fetched H. exact H.
    - exact Hts.
    - exact I. }
  unfold health. cbn [h_guidelines h_cached h_sections].
  destruct (guidelinesCache (cache (snd (turns emptyLoop ts)))) as [g |].
  - right. destruct (sections g); [contradiction | cbn; lia].
  - left. reflexivity.
Qed.

Lemma cached_document_has_sections_witness :
  let ts := [ GetBegin 0 100;
              GetSettle 0 (fetchAppleGuidelines 120 (HttpThrew "connect ETIMEDOUT"));
              RefreshSettle (fetchAppleGuidelines 300 (HttpLoaded [])) 300 ] in
  let report := h_guidelines (health (cache (snd (turns emptyLoop ts))) 400) in
  h_cached report = false \/ (0 < h_sections report)%nat.
Proof.
  apply (cached_document_has_sections
           [ GetBegin 0 100;
             GetSettle 0 (fetchAppleGuidelines 120 (HttpThrew "connect ETIMEDOUT"));
             RefreshSettle (fetchAppleGuidelines 300 (HttpLoaded [])) 300 ] 400).
  constructor; [exact I |].
  constructor; [exists 120, (HttpThrew "connect ETIMEDOUT"); reflexivity |].
  constructor; [exists 300, (HttpLoaded []); reflexivity |].
  constructor.
Defined.

(** X9.  Cache misses are not coalesced: while the cache is not fresh,
    every call of [getCachedGuidelines] that starts before the earlier
    fetches settle starts a fetch of its own; [n] overlapping calls leave
    [n] more fetches in flight, and none of them changes the cache before
    it settles. *)
Theorem overlapping_misses_each_fetch (l : Loop) (calls : list (nat * Z)) :
  (forall c, In c calls -> fresh (cache l) (snd c) = None) ->
  fst (turns l (begins calls)) = []
  /\ cache (snd (turns l (begins calls))) = cache l
  /\ pending (snd (turns l (begins calls))) = rev calls ++ pending l.
Proof.
  revert l. induction calls as [| [id now] rest IH]; intros l Hmiss.
  - repeat split.
  - assert (Hnow : fresh (cache l) now = None) by (apply (Hmiss (id, now)); left; reflexivity).
    specialize (IH {| cache := cache l; pending := (id, now) :: pending l |}).
    cbn [cache pending] in IH.
    destruct IH as (Hf & Hc & Hp).
    { intros c Hc. apply Hmiss. right. exact Hc. }
    unfold begins in *. cbn [map fst snd turns turn]. rewrite Hnow.
    destruct (turns {| cache := cache l; pending := (id, now) :: pending l |}
                    (map (fun c => GetBegin (fst c) (snd c)) rest)) as [fs l''].
    cbn [fst snd] in *.
    split; [exact Hf |]. split; [exact Hc |].
    rewrite Hp. cbn [rev]. rewrite <- app_assoc. reflexivity.
Qed.

Lemma overlapping_misses_each_fetch_witness :
  fst (turns emptyLoop (begins [(0%nat, 100); (1%nat, 105); (2%nat, 110)])) = []
  /\ cache (snd (turns emptyLoop (begins [(0%nat, 100); (1%nat, 105); (2%nat, 110)])))
     = cache emptyLoop
  /\ pending (snd (turns emptyLoop (begins [(0%nat, 100); (1%nat, 105); (2%nat, 110)])))
     = rev [(0%nat, 100); (1%nat, 105); (2%nat, 110)] ++ pending emptyLoop.
Proof.
  apply (overlapping_misses_each_fetch emptyLoop
           [(0%nat, 100); (1%nat, 105); (2%nat, 110)]).
  intros c _. reflexivity.
Defined.

(** ** The upload handler *)

(** X10.  With the repository's fetcher the upload handler answers 500 in
    one case only: a file was uploaded and the scanner failed without
    printing anything.  The reply then carries no [details] (the value
    [runGreenlight] rejects with has no [message]) and the cache is
    untouched.  Without a file the answer is 400, and in every other case a
    report with the file's name and size. *)
Theorem scanUpload_fails_only_without_scanner_output
    (file : option UploadedFile) (exec : ExecOutcome) (parse : ParseOutcome)
    (timestamp : Z) (st : Cache) (now clock : Z) (http : HttpOutcome) :
  let reply := scanUploadHandler file exec parse timestamp st now
                                 (fetchAppleGuidelines clock http) in
  match file with
  | None => reply = (Err400 "No IPA file uploaded", st)
  | Some f =>
      if (match exec_error exec with Some _ => true | None => false end
          && negb (truthy (exec_stdout exec)))%bool
      then reply = (Err500 "Scan failed" None, st)
      else exists body st',
             reply = (Ok200 body, st')
             /\ body_fileName body = originalname f
             /\ body_fileSize body = size f
             /\ results body
                = match parse with
                  | Parsed v => v
                  | SyntaxError =>
                      JObj [ ("rawOutput", JStr (exec_stdout exec));
                             ("stderr", JStr (exec_stderr exec));
                             ("exitCode",
                              JNum match exec_error exec with
                                   | Some (_, Some code) => code
                                   | _ => 0
                                   end) ]
                  end
  end.
Proof.
  cbv zeta. destruct file as [f |]; [| reflexivity].
  unfold scanUploadHandler, runGreenlight.
  destruct (exec_error exec) as [[msg code] |]; cbn [andb].
  - destruct (truthy (exec_stdout exec)); cbn [negb].
    + destruct (scanUpload_afterScan_resolves f
                  {| stdout := exec_stdout exec; stderr := exec_stderr exec;
                     exitCode := match code with Some c => c | None => 0 end |}
                  parse timestamp st now clock http) as (s & st' & _ & Hresp).
      rewrite Hresp. eexists; eexists. split; [reflexivity |].
      cbn [body_fileName body_fileSize results].
      split; [reflexivity |]. split; [reflexivity |].
      destruct parse; reflexivity.
    + reflexivity.
  - destruct (scanUpload_afterScan_resolves f
                {| stdout := exec_stdout exec; stderr := exec_stderr exec;
                   exitCode := 0 |}
                parse timestamp st now clock http) as (s & st' & _ & Hresp).
    rewrite Hresp. eexists; eexists. split; [reflexivity |].
    cbn [body_fileName body_fileSize results].
    split; [reflexivity |]. split; [reflexivity |].
    destruct parse; reflexivity.
Qed.

(** ** Fix suggestions *)

Lemma assoc_set_prop_same (k : string) (v : json) (f : Finding) :
  assoc k (set_prop k v f) = Some v.
Proof.
  induction f as [| [k0 v0] rest IH]; cbn [set_prop assoc].
  - rewrite String.eqb_refl. reflexivity.
  - destruct (String.eqb_spec k0 k) as [-> | Hne]; cbn [assoc].
    + rewrite String.eqb_refl. reflexivity.
    + destruct (String.eqb_spec k0 k); [contradiction | exact IH].
Qed.

Lemma keys_set_prop (k : string) (v : json) (f : Finding) :
  keys (set_prop k v f)
  = if existsb (String.eqb k) (keys f) then keys f else keys f ++ [k].
Proof.
  unfold keys.
  induction f as [| [k0 v0] rest IH]; cbn [set_prop map fst existsb].
  - reflexivity.
  - rewrite (String.eqb_sym k k0).
    destruct (String.eqb k0 k) eqn:E; cbn [orb map fst].
    + apply String.eqb_eq in E. subst k0. reflexivity.
    + rewrite IH. destruct (existsb (String.eqb k) (map fst rest)); reflexivity.
Qed.

Lemma fix_loop_nth (reply : nat -> option string) (fs : list Finding) :
  forall (start i : nat) (f : Finding),
    nth_error fs i = Some f ->
    nth_error (fix_loop reply start fs) i
    = Some match reply (start + i)%nat with
           | Some t => set_prop "fixSuggestion" (JStr (trim t)) f
           | None => f
           end.
Proof.
  induction fs as [| f0 rest IH]; intros start i f Hn.
  - destruct i; discriminate.
  - destruct i as [| i]; cbn [nth_error fix_loop] in *.
    + injection Hn as ->. rewrite Nat.add_0_r. reflexivity.
    + rewrite (IH (S start) i f Hn).
      replace (S start + i)%nat with (start + S i)%nat by lia. reflexivity.
Qed.

Lemma fix_loop_no_reply (reply : nat -> option string) (fs : list Finding) :
  (forall i, reply i = None) ->
  forall start, fix_loop reply start fs = fs.
Proof.
  intros Hnone. induction fs as [| f rest IH]; intros start; cbn [fix_loop].
  - reflexivity.
  - rewrite Hnone, IH. reflexivity.
Qed.

(** X11.  When a key is found and the client is built, each finding whose
    call answered comes back with the trimmed reply as its [fixSuggestion],
    at the same index, with its property names in their order:
    [fixSuggestion] keeps its place when the finding had one and is
    appended otherwise. *)
Theorem answered_finding_carries_reply
    (w : FixWorld) (fs : list Finding) (i : nat) (f : Finding) (t : string) :
  truthy_opt (fix_apiKey w) = true ->
  fix_clientThrows w = false ->
  nth_error fs i = Some f ->
  fix_reply w i = Some t ->
  exists fs' f',
    generateFixSuggestions w fs = Resolved fs'
    /\ nth_error fs' i = Some f'
    /\ assoc "fixSuggestion" f' = Some (JStr (trim t))
    /\ keys f' = (if existsb (String.eqb "fixSuggestion") (keys f)
                  then keys f else keys f ++ ["fixSuggestion"]).
Proof.
  intros Hkey Hclient Hn Hreply.
  unfold generateFixSuggestions. rewrite Hkey, Hclient. cbn [negb].
  eexists; eexists. split; [reflexivity |].
  rewrite (fix_loop_nth _ _ 0 i f Hn). cbn [Nat.add]. rewrite Hreply.
  split; [reflexivity |].
  split; [apply assoc_set_prop_same | apply keys_set_prop].
Qed.

Lemma answered_finding_carries_reply_witness :
  exists fs' f',
    generateFixSuggestions firstReplyOnly [findingA; findingB] = Resolved fs'
    /\ nth_error fs' 0 = Some f'
    /\ assoc "fixSuggestion" f' = Some (JStr (trim "  Remove the private framework. "))
    /\ keys f' = (if existsb (String.eqb "fixSuggestion") (keys findingA)
                  then keys findingA else keys findingA ++ ["fixSuggestion"]).
Proof.
  apply (answered_finding_carries_reply firstReplyOnly [findingA; findingB] 0
           findingA "  Remove the private framework. "); reflexivity.
Defined.

(** X12.  When no key is found, or the client cannot be built, or no call
    answers, [generateFixSuggestions] resolves to the very list it was
    given. *)
Theorem failed_suggestions_return_input (w : FixWorld) (fs : list Finding) :
  truthy_opt (fix_apiKey w) = false
  \/ fix_clientThrows w = true
  \/ (forall i, fix_reply w i = None) ->
  generateFixSuggestions w fs = Resolved fs.
Proof.
  intros H. unfold generateFixSuggestions.
  destruct (truthy_opt (fix_apiKey w)); cbn [negb]; [| reflexivity].
  destruct (fix_clientThrows w); [reflexivity |].
  destruct H as [H | [H | H]]; try discriminate.
  rewrite (fix_loop_no_reply _ _ H). reflexivity.
Qed.

Lemma failed_suggestions_return_input_witness :
  generateFixSuggestions
    {| fix_apiKey := Some "sk-key"; fix_clientThrows := false;
       fix_reply := fun _ => None |}
    [findingA; findingB]
  = Resolved [findingA; findingB].
Proof.
  apply (failed_suggestions_return_input
           {| fix_apiKey := Some "sk-key"; fix_clientThrows := false;
              fix_reply := fun _ => None |}
           [findingA; findingB]).
  right. right. intros i. reflexivity.
Defined.

(** C6, as stated, fails: a finding that comes with a [fixSuggestion] of
    its own does not keep it; the reply replaces the old value. *)
Lemma existing_fix_suggestion_overwritten :
  assoc "fixSuggestion" findingB = Some (JStr "old advice")
  /\ generateFixSuggestions everyReply [findingB] = Resolved [findingB_enriched]
  /\ assoc "fixSuggestion" findingB_enriched = Some (JStr "Load the page over HTTPS.")
  /\ assoc "fixSuggestion" findingB_enriched <> assoc "fixSuggestion" findingB.
Proof.
  split; [reflexivity |]. split; [reflexivity |]. split; [reflexivity |].
  discriminate.
Qed.

Lemma generateFixSuggestions_nth (w : FixWorld) (fs : list Finding) :
  exists fs',
    generateFixSuggestions w fs = Resolved fs'
    /\ forall i f,
         nth_error fs i = Some f ->
         nth_error fs' i
         = Some match answer w i with
                | Some t => set_prop "fixSuggestion" (JStr (trim t)) f
                | None => f
                end.
Proof.
  unfold generateFixSuggestions, answer.
  destruct (truthy_opt (fix_apiKey w)); cbn [negb andb].
  - destruct (fix_clientThrows w); cbn [negb].
    + exists fs. split; [reflexivity | intros i f H; exact H].
    + eexists. split; [reflexivity |].
      intros i f H. rewrite (fix_loop_nth _ _ 0 i f H). reflexivity.
  - exists fs. split; [reflexivity | intros i f H; exact H].
Qed.

(** C6, amended.  Whatever the calls do (no key, the client cannot be
    built, a call is rejected or times out, a reply is malformed, or all
    calls answer), [analyzeWithAI] and [generateFixSuggestions] resolve.
    [generateFixSuggestions] returns the findings in the same number and
    order: a finding whose call answered has its [fixSuggestion] property
    set to the trimmed reply (added, or put in the place of the one it had)
    and every other finding is returned as it was; no property other than
    [fixSuggestion] changes its value or its place. *)
Theorem enrichment_sets_only_fixSuggestion
    (apiKey : option string) (o : Reply.ReplyOutcome) (clock : Z)
    (w : FixWorld) (fs : list Finding) :
  (exists analysis, Reply.analyzeWithAI apiKey o clock = Resolved analysis)
  /\ exists fs',
       generateFixSuggestions w fs = Resolved fs'
       /\ List.length fs' = List.length fs
       /\ map without_fix fs' = map without_fix fs
       /\ (forall k, k <> "fixSuggestion" -> map (assoc k) fs' = map (assoc k) fs)
       /\ (forall i f,
             nth_error fs i = Some f ->
             nth_error fs' i
             = Some match answer w i with
                    | Some t => set_prop "fixSuggestion" (JStr (trim t)) f
                    | None => f
                    end).
Proof.
  split.
  - unfold Reply.analyzeWithAI.
    destruct (negb (truthy_opt apiKey)); [eexists; reflexivity |].
    destruct o; eexists; reflexivity.
  - destruct (generateFixSuggestions_nth w fs) as (fs' & E & Hnth).
    destruct (generateFixSuggestions_enriched w fs) as (fs'' & E' & H).
    rewrite E in E'. injection E' as <-.
    destruct (Forall2_enriched_frame _ _ H) as (Hlen & Hwf & Hk).
    exists fs'. repeat split; assumption.
Qed.

Lemma enrich_with_error (scan : ScanResults) (apiKey : option string)
    (o : AnalysisOutcome) (clock : Z) (w : FixWorld) (ai : AiAnalysis) :
  analyzeWithAI apiKey o clock = Resolved ai ->
  truthy_opt (ai_error ai) = true ->
  enrich scan apiKey o clock w
  = Resolved {| summary := summary scan; findings := findings scan;
                aiAnalysis := Some ai |}.
Proof.
  intros E Herr. unfold enrich. rewrite E. cbn [findings].
  destruct (findings scan) as [[| f fs] |]; try reflexivity.
  rewrite Herr. reflexivity.
Qed.

Lemma failed_analysis (apiKey : option string) (o : AnalysisOutcome) (clock : Z) :
  truthy_opt apiKey = false
  \/ o = AiNoJson
  \/ (exists msg, o = AiThrew msg /\ truthy msg = true) ->
  exists ai,
    analyzeWithAI apiKey o clock = Resolved ai
    /\ truthy_opt (ai_error ai) = true
    /\ truthy_opt (riskLevel ai) = true
    /\ recommendations ai = Some [].
Proof.
  intros H. unfold analyzeWithAI.
  destruct (truthy_opt apiKey); cbn [negb].
  - destruct H as [H | [-> | (msg & -> & Hmsg)]]; [discriminate | |].
    + eexists. split; [reflexivity |]. repeat split.
    + eexists. split; [reflexivity |]. cbn. repeat split. exact Hmsg.
  - eexists. split; [reflexivity |]. repeat split.
Qed.

(** X13.  When the analysis fails (no key, a reply without JSON, or an
    exception with a message), the enhanced handler makes no fix-suggestion
    call: the scan keeps its findings exactly, whatever the suggestion
    calls would have answered, and gets an analysis with the error, a risk
    level text and an empty list of recommendations. *)
Theorem failed_analysis_skips_fix_suggestions
    (scan : ScanResults) (apiKey : option string) (o : AnalysisOutcome)
    (clock : Z) (w : FixWorld) :
  truthy_opt apiKey = false
  \/ o = AiNoJson
  \/ (exists msg, o = AiThrew msg /\ truthy msg = true) ->
  exists ai,
    enrich scan apiKey o clock w
    = Resolved {| summary := summary scan; findings := findings scan;
                  aiAnalysis := Some ai |}
    /\ truthy_opt (ai_error ai) = true
    /\ recommendations ai = Some [].
Proof.
  intros H.
  destruct (failed_analysis apiKey o clock H) as (ai & E & Herr & _ & Hrecs).
  exists ai. split; [apply enrich_with_error; assumption |].
  split; assumption.
Qed.

Lemma failed_analysis_skips_fix_suggestions_witness :
  exists ai,
    enrich twoLongFindings None AiNoJson 5000 firstReplyOnly
    = Resolved {| summary := summary twoLongFindings;
                  findings := findings twoLongFindings;
                  aiAnalysis := Some ai |}
    /\ truthy_opt (ai_error ai) = true
    /\ recommendations ai = Some [].
Proof.
  apply (failed_analysis_skips_fix_suggestions twoLongFindings None AiNoJson 5000
           firstReplyOnly).
  left. reflexivity.
Defined.

(** ** Pages of the report *)

Section PageProofs.

Variable heightOfString : Z -> string -> Z -> Z.

Lemma pagesOf_addPage (top : Z) (d : Doc) :
  pagesOf (addPage top d) = pagesOf d ++ [[]].
Proof. reflexivity. Qed.

Lemma headed_put (scan : ScanResults) (b : Block) (d : Doc) :
  headed scan (pagesOf d) -> headed scan (pagesOf (put heightOfString b d)).
Proof.
  unfold pagesOf. intros (p & rest & E). unfold put, place. cbn [finished current].
  destruct (finished d) as [| p0 fin].
  - cbn [app] in E. injection E as E <-. rewrite E.
    exists (p ++ [(y d, b)]), []. reflexivity.
  - cbn [app] in E. injection E as -> <-.
    eexists; eexists. reflexivity.
Qed.

Lemma headed_snoc (scan : ScanResults) (ps : list Page) (p : Page) :
  headed scan ps -> headed scan (ps ++ [p]).
Proof.
  intros (p1 & rest & ->). exists p1, (rest ++ [p]). reflexivity.
Qed.

Lemma headed_break_put (scan : ScanResults) (limit : Z) (b : Block) (d : Doc) :
  headed scan (pagesOf d) ->
  headed scan (pagesOf (put heightOfString b (breakIfBeyond limit d))).
Proof.
  intros H. apply headed_put. unfold breakIfBeyond.
  destruct (y d >? limit); [| exact H].
  rewrite pagesOf_addPage. apply headed_snoc. exact H.
Qed.

Lemma headed_layoutFindings (scan : ScanResults) (fs : list Finding) :
  forall i d,
    headed scan (pagesOf d) ->
    headed scan (pagesOf (layoutFindings heightOfString i fs d)).
Proof.
  induction fs as [| f fs IH]; intros i d H; cbn [layoutFindings].
  - exact H.
  - apply IH. apply headed_break_put. exact H.
Qed.

Lemma headed_layoutRecs (scan : ScanResults) (rs : list Recommendation) :
  forall i d,
    headed scan (pagesOf d) ->
    headed scan (pagesOf (layoutRecs heightOfString i rs d)).
Proof.
  induction rs as [| r rs IH]; intros i d H; cbn [layoutRecs].
  - exact H.
  - apply IH. apply headed_break_put. exact H.
Qed.

Lemma headed_layoutBody (scan : ScanResults) :
  headed scan (pagesOf (layoutBody heightOfString scan)).
Proof.
  unfold layoutBody, layoutRecommendations, layoutRisk.
  assert (H2 : headed scan
                 (pagesOf (put heightOfString (summaryBlock scan)
                             (put heightOfString BHeader
                                {| finished := []; current := []; y := 50 |})))).
  { exists [], []. reflexivity. }
  destruct (riskOf scan) as [r |]; destruct (recsOf scan) as [rs |];
    repeat first
      [ exact H2
      | apply headed_layoutRecs
      | apply headed_break_put
      | apply headed_layoutFindings
      | apply headed_put ].
Qed.

(** X14.  Every report opens with the header at the top margin of the first
    page with the summary right below it, and closes with a page that holds
    the footer alone, at cursor 350; so a report has at least two pages,
    and neither the header nor the summary is ever moved to a later
    page. *)
Theorem report_opens_with_header_closes_with_footer (scan : ScanResults) :
  exists p rest,
    generateCompliancePDF heightOfString scan
    = (((50, BHeader) :: (175, summaryBlock scan) :: p) :: rest)
      ++ [[(350, BFooter)]].
Proof.
  destruct (headed_layoutBody scan) as (p & rest & E). unfold pagesOf in E.
  exists p, rest. rewrite generateCompliancePDF_pages, E. reflexivity.
Qed.

(** *** No blank page *)

Lemma filled_put (b : Block) (d : Doc) :
  Forall (fun p : Page => p <> []) (finished d) ->
  Forall (fun p : Page => p <> []) (pagesOf (put heightOfString b d)).
Proof.
  intros H. unfold pagesOf, put, place. cbn [finished current].
  apply Forall_app. split; [exact H |].
  constructor; [| constructor].
  destruct (current d); discriminate.
Qed.

Lemma filled_break_put (limit : Z) (b : Block) (d : Doc) :
  Forall (fun p : Page => p <> []) (pagesOf d) ->
  Forall (fun p : Page => p <> []) (pagesOf (put heightOfString b (breakIfBeyond limit d))).
Proof.
  intros H. apply filled_put. unfold breakIfBeyond.
  destruct (y d >? limit).
  - exact H.
  - unfold pagesOf in H. apply Forall_app in H. apply H.
Qed.

Lemma filled_layoutFindings (fs : list Finding) :
  forall i d,
    Forall (fun p : Page => p <> []) (pagesOf d) ->
    Forall (fun p : Page => p <> []) (pagesOf (layoutFindings heightOfString i fs d)).
Proof.
  induction fs as [| f fs IH]; intros i d H; cbn [layoutFindings].
  - exact H.
  - apply IH. apply filled_break_put. exact H.
Qed.

Lemma filled_layoutRecs (rs : list Recommendation) :
  forall i d,
    Forall (fun p : Page => p <> []) (pagesOf d) ->
    Forall (fun p : Page => p <> []) (pagesOf (layoutRecs heightOfString i rs d)).
Proof.
  induction rs as [| r rs IH]; intros i d H; cbn [layoutRecs].
  - exact H.
  - apply IH. apply filled_break_put. exact H.
Qed.

Lemma filled_put_plain (b : Block) (d : Doc) :
  Forall (fun p : Page => p <> []) (pagesOf d) ->
  Forall (fun p : Page => p <> []) (pagesOf (put heightOfString b d)).
Proof.
  intros H. apply filled_put. unfold pagesOf in H. apply Forall_app in H. apply H.
Qed.

Lemma filled_layoutBody (scan : ScanResults) :
  Forall (fun p : Page => p <> []) (pagesOf (layoutBody heightOfString scan)).
Proof.
  unfold layoutBody, layoutRecommendations, layoutRisk.
  assert (H1 : Forall (fun p : Page => p <> [])
                 (pagesOf (put heightOfString BHeader
                             {| finished := []; current := []; y := 50 |}))).
  { apply filled_put. constructor. }
  destruct (riskOf scan) as [r |]; destruct (recsOf scan) as [rs |];
    repeat first
      [ exact H1
      | apply filled_layoutRecs
      | apply filled_break_put
      | apply filled_layoutFindings
      | apply filled_put_plain ].
Qed.

(** X15.  The generator never leaves a blank page: every page of a report
    holds at least one block, because a page is opened only right before a
    block is placed on it. *)
Theorem report_has_no_blank_page (scan : ScanResults) :
  Forall (fun p : Page => p <> []) (generateCompliancePDF heightOfString scan).
Proof.
  rewrite generateCompliancePDF_pages.
  apply Forall_app. split; [apply (filled_layoutBody scan) |].
  constructor; [discriminate | constructor].
Qed.

(** *** Number of pages *)

Lemma pages_break_put (limit : Z) (b : Block) (d : Doc) :
  (List.length (finished (put heightOfString b (breakIfBeyond limit d)))
   <= S (List.length (finished d)))%nat.
Proof.
  unfold put, place, breakIfBeyond. cbn [finished].
  destruct (y d >? limit); cbn [finished addPage].
  - rewrite length_app. cbn. lia.
  - lia.
Qed.

Lemma pages_layoutFindings (fs : list Finding) :
  forall i d,
    (List.length (finished (layoutFindings heightOfString i fs d))
     <= List.length (finished d) + List.length fs)%nat.
Proof.
  induction fs as [| f fs IH]; intros i d; cbn [layoutFindings List.length].
  - lia.
  - specialize (IH (S i) (put heightOfString (BFinding i f) (breakIfBeyond 700 d))).
    pose proof (pages_break_put 700 (BFinding i f) d). lia.
Qed.

Lemma pages_layoutRecs (rs : list Recommendation) :
  forall i d,
    (List.length (finished (layoutRecs heightOfString i rs d))
     <= List.length (finished d) + List.length rs)%nat.
Proof.
  induction rs as [| r rs IH]; intros i d; cbn [layoutRecs List.length].
  - lia.
  - specialize (IH (S i) (put heightOfString (BRec i r) (breakIfBeyond 700 d))).
    pose proof (pages_break_put 700 (BRec i r) d). lia.
Qed.

(** X16.  The generator itself opens few pages: counting the pages it
    opens with [doc.addPage()] and the first one, a report has at least two
    and at most two more than the number of blocks placed after a cursor
    test (the findings, and the recommendations with their heading), since
    [doc.addPage()] is called once for the footer and at most once before
    each such block.  Without findings and recommendations it is called for
    the footer only.  (Pages that the PDF library adds on its own when a
    text runs past the bottom margin are not counted.) *)
Theorem report_page_count (scan : ScanResults) :
  (2 <= List.length (generateCompliancePDF heightOfString scan)
   <= 2 + flowCount scan)%nat.
Proof.
  rewrite generateCompliancePDF_pages, !length_app. cbn [List.length].
  split; [lia |].
  assert (H : (List.length (finished (layoutBody heightOfString scan))
               <= flowCount scan)%nat).
  { unfold layoutBody, layoutRecommendations, layoutRisk, flowCount.
    set (d3 := match riskOf scan with
               | Some r => put heightOfString (BRisk r) _
               | None => _
               end).
    assert (H3 : finished d3 = []).
    { subst d3. destruct (riskOf scan); reflexivity. }
    pose proof (pages_layoutFindings (findingsList scan) 0
                  (put heightOfString BFindingsHeading d3)) as Hf.
    change (finished (put heightOfString BFindingsHeading d3)) with (finished d3) in Hf.
    rewrite H3 in Hf. cbn [List.length] in Hf.
    destruct (recsOf scan) as [rs |].
    - pose proof (pages_layoutRecs rs 0
                    (put heightOfString BRecsHeading
                       (breakIfBeyond 650
                          (layoutFindings heightOfString 0 (findingsList scan)
                             (put heightOfString BFindingsHeading d3))))) as Hr.
      pose proof (pages_break_put 650 BRecsHeading
                    (layoutFindings heightOfString 0 (findingsList scan)
                       (put heightOfString BFindingsHeading d3))) as Hb.
      lia.
    - lia. }
  lia.
Qed.

End PageProofs.

Section FitProofs.

Variable heightOfString : Z -> string -> Z -> Z.
Hypothesis heights_nonnegative : nonnegative heightOfString.

Lemma blockHeight_nonneg (b : Block) : 0 <= blockHeight heightOfString b.
Proof.
  destruct b; cbn [blockHeight]; try lia.
  - unfold findingHeight.
    pose proof (heights_nonnegative 10
                  (or_default (text "description" finding) "No description") 512).
    destruct (truthy_opt (text "guideline" finding));
      destruct (text "fixSuggestion" finding) as [s |];
      try (destruct (truthy s); [pose proof (heights_nonnegative 9 s 497) |]);
      lia.
  - unfold recHeight.
    pose proof (heights_nonnegative 10 (rec_description recommendation) 497). lia.
Qed.

Lemma sumHeights_app (bs cs : list Block) :
  sumHeights heightOfString (bs ++ cs)
  = sumHeights heightOfString bs + sumHeights heightOfString cs.
Proof.
  unfold sumHeights.
  induction bs as [| b bs IH]; cbn [app fold_right].
  - reflexivity.
  - rewrite IH. lia.
Qed.

Lemma sumHeights_nonneg (bs : list Block) : 0 <= sumHeights heightOfString bs.
Proof.
  induction bs as [| b bs IH]; cbn.
  - lia.
  - unfold sumHeights in IH. pose proof (blockHeight_nonneg b). lia.
Qed.

Lemma breakIfBeyond_within (limit : Z) (d : Doc) :
  y d <= limit -> breakIfBeyond limit d = d.
Proof.
  intros H. unfold breakIfBeyond.
  destruct (Z.gtb_spec (y d) limit); [lia | reflexivity].
Qed.

Lemma layoutFindings_fits (fs : list Finding) :
  forall i d,
    y d + sumHeights heightOfString (findingBlocks i fs) <= 700 ->
    finished (layoutFindings heightOfString i fs d) = finished d
    /\ y (layoutFindings heightOfString i fs d)
       = y d + sumHeights heightOfString (findingBlocks i fs).
Proof.
  induction fs as [| f fs IH]; intros i d H; cbn [layoutFindings findingBlocks].
  - cbn. split; [reflexivity | lia].
  - cbn [findingBlocks] in H.
    change (sumHeights heightOfString (BFinding i f :: findingBlocks (S i) fs))
      with (blockHeight heightOfString (BFinding i f)
            + sumHeights heightOfString (findingBlocks (S i) fs)) in *.
    pose proof (blockHeight_nonneg (BFinding i f)) as Hb.
    pose proof (sumHeights_nonneg (findingBlocks (S i) fs)) as Hs.
    rewrite breakIfBeyond_within by lia.
    destruct (IH (S i) (put heightOfString (BFinding i f) d)) as [Hfin Hy].
    { unfold put, place. cbn [y]. lia. }
    rewrite Hfin, Hy. unfold put, place. cbn [finished y]. split; [reflexivity | lia].
Qed.

Lemma layoutRecs_fits (rs : list Recommendation) :
  forall i d,
    y d + sumHeights heightOfString (recBlocks i rs) <= 700 ->
    finished (layoutRecs heightOfString i rs d) = finished d.
Proof.
  induction rs as [| r rs IH]; intros i d H; cbn [layoutRecs recBlocks].
  - reflexivity.
  - cbn [recBlocks] in H.
    change (sumHeights heightOfString (BRec i r :: recBlocks (S i) rs))
      with (blockHeight heightOfString (BRec i r)
            + sumHeights heightOfString (recBlocks (S i) rs)) in *.
    pose proof (blockHeight_nonneg (BRec i r)) as Hb.
    pose proof (sumHeights_nonneg (recBlocks (S i) rs)) as Hs.
    rewrite breakIfBeyond_within by lia.
    rewrite IH; [reflexivity |].
    unfold put, place. cbn [y]. lia.
Qed.

Lemma blockHeight_summaryBlock (scan : ScanResults) :
  blockHeight heightOfString (summaryBlock scan) = 140.
Proof. unfold summaryBlock. destruct (summary scan); reflexivity. Qed.

Lemma layoutBody_from_prelude (scan : ScanResults) :
  layoutBody heightOfString scan
  = layoutRecommendations heightOfString scan
      (layoutFindings heightOfString 0 (findingsList scan)
         (layoutPrelude heightOfString scan)).
Proof. reflexivity. Qed.

Lemma layoutPrelude_state (scan : ScanResults) :
  finished (layoutPrelude heightOfString scan) = []
  /\ y (layoutPrelude heightOfString scan)
     = 345 + match riskOf scan with Some _ => 45 | None => 0 end.
Proof.
  unfold layoutPrelude, layoutRisk.
  destruct (riskOf scan); unfold put, place; cbn [finished y blockHeight];
    rewrite blockHeight_summaryBlock; split; reflexivity || lia.
Qed.

Lemma layoutBody_fits (scan : ScanResults) :
  50 + sumHeights heightOfString (documentBlocks scan) <= 650 ->
  finished (layoutBody heightOfString scan) = [].
Proof.
  unfold documentBlocks. rewrite !sumHeights_app.
  pose proof (sumHeights_nonneg (findingBlocks 0 (findingsList scan))) as Hf.
  change (sumHeights heightOfString [BHeader; summaryBlock scan])
    with (125 + (blockHeight heightOfString (summaryBlock scan) + 0)).
  rewrite blockHeight_summaryBlock.
  change (sumHeights heightOfString [BFindingsHeading]) with (30 + 0).
  change (sumHeights heightOfString [BFooter]) with (0 + 0).
  rewrite layoutBody_from_prelude.
  destruct (layoutPrelude_state scan) as [F4 Y4].
  set (d4 := layoutPrelude heightOfString scan) in *.
  assert (Hrisk : sumHeights heightOfString
                    (match riskOf scan with Some r => [BRisk r] | None => [] end)
                  = match riskOf scan with Some _ => 45 | None => 0 end).
  { destruct (riskOf scan); reflexivity. }
  rewrite Hrisk. intros H.
  assert (Hrecs : 0 <= sumHeights heightOfString
                         (match recsOf scan with
                          | Some rs => BRecsHeading :: recBlocks 0 rs
                          | None => []
                          end)) by apply sumHeights_nonneg.
  destruct (layoutFindings_fits (findingsList scan) 0 d4) as [F5 Y5]; [lia |].
  unfold layoutRecommendations.
  destruct (recsOf scan) as [rs |].
  - change (sumHeights heightOfString (BRecsHeading :: recBlocks 0 rs))
      with (30 + sumHeights heightOfString (recBlocks 0 rs)) in H, Hrecs.
    rewrite breakIfBeyond_within by lia.
    rewrite layoutRecs_fits.
    + unfold put, place. cbn [finished]. rewrite F5. exact F4.
    + unfold put, place. cbn [y blockHeight]. lia.
  - rewrite F5. exact F4.
Qed.

End FitProofs.

(** X17.  For a short report the generator opens no page but the
    footer's: when the printed properties of the findings are textual, no
    text has a negative height, and the blocks of the report, placed from
    the top margin, end at 650 or before, the cursor never passes a limit,
    [doc.addPage()] is called for the footer only, and all the blocks are
    placed on the first page in document order. *)
Theorem short_report_takes_two_pages
    (heightOfString : Z -> string -> Z -> Z) (scan : ScanResults) :
  Forall (fun f => textual f = true) (findingsList scan) ->
  nonnegative heightOfString ->
  50 + sumHeights heightOfString (documentBlocks scan) <= 650 ->
  exists p,
    generateCompliancePDF heightOfString scan = [p; [(350, BFooter)]]
    /\ pageBlocks p ++ [BFooter] = documentBlocks scan.
Proof.
  intros _ Hnn Hfit.
  pose proof (layoutBody_fits heightOfString Hnn scan Hfit) as Hfin.
  exists (current (layoutBody heightOfString scan)).
  rewrite generateCompliancePDF_pages, Hfin. split; [reflexivity |].
  rewrite <- (writtenBlocks_layoutBody heightOfString scan).
  unfold writtenBlocks. rewrite Hfin. unfold allBlocks. cbn [app map List.concat].
  rewrite app_nil_r. reflexivity.
Qed.

Lemma clampedHeight_nonnegative : nonnegative clampedHeight.
Proof. intros size s width. apply Z.le_max_l. Qed.

Lemma short_report_takes_two_pages_witness :
  Forall (fun f => textual f = true) (findingsList shortScan)
  /\ 50 + sumHeights clampedHeight (documentBlocks shortScan) <= 650
  /\ exists p,
       generateCompliancePDF clampedHeight shortScan = [p; [(350, BFooter)]]
       /\ pageBlocks p ++ [BFooter] = documentBlocks shortScan.
Proof.
  assert (Htext : Forall (fun f => textual f = true) (findingsList shortScan)).
  { repeat constructor. }
  split; [exact Htext |].
  split.
  - vm_compute. discriminate.
  - apply (short_report_takes_two_pages clampedHeight shortScan).
    + exact Htext.
    + exact clampedHeight_nonnegative.
    + vm_compute. discriminate.
Defined.

(** ** A failed analysis in the report *)

Lemma allBlocks_generateCompliancePDF
    (heightOfString : Z -> string -> Z -> Z) (scan : ScanResults) :
  allBlocks (generateCompliancePDF heightOfString scan) = documentBlocks scan.
Proof.
  rewrite generateCompliancePDF_pages, allBlocks_app.
  rewrite <- (writtenBlocks_layoutBody heightOfString scan). reflexivity.
Qed.

Lemma failed_analysis_risk (apiKey : option string) (o : AnalysisOutcome) (clock : Z) :
  truthy_opt apiKey = false
  \/ o = AiNoJson
  \/ (exists msg, o = AiThrew msg /\ truthy msg = true) ->
  exists ai,
    analyzeWithAI apiKey o clock = Resolved ai
    /\ truthy_opt (ai_error ai) = true
    /\ riskLevel ai
       = Some (if truthy_opt apiKey
               then match o with
                    | AiNoJson => "Unable to assess"
                    | _ => "Unable to assess (AI error)"
                    end
               else "Unable to assess (no AI available)")
    /\ recommendations ai = Some [].
Proof.
  intros H. unfold analyzeWithAI.
  destruct (truthy_opt apiKey); cbn [negb].
  - destruct H as [H | [-> | (msg & -> & Hmsg)]]; [discriminate | |].
    + eexists. split; [reflexivity |]. repeat split.
    + eexists. split; [reflexivity |]. cbn. repeat split. exact Hmsg.
  - eexists. split; [reflexivity |]. repeat split.
Qed.

(** X19.  A failed analysis still leaves its marks on the report: when the
    analysis fails (no key, a reply without JSON, or an exception with a
    message), the report generated from the scan that steps 2 and 3 of the
    enhanced handler produce shows the risk assessment with the text of
    the failure ("Unable to assess (no AI available)" without a key,
    "Unable to assess" for a reply without JSON, "Unable to assess (AI
    error)" for an exception) above the findings and, after the untouched
    findings, the heading of the recommendations with nothing under it (an
    empty list is truthy). *)
Theorem failed_analysis_report_blocks
    (heightOfString : Z -> string -> Z -> Z) (scan : ScanResults)
    (apiKey : option string) (o : AnalysisOutcome) (clock : Z) (w : FixWorld) :
  truthy_opt apiKey = false
  \/ o = AiNoJson
  \/ (exists msg, o = AiThrew msg /\ truthy msg = true) ->
  exists scan',
    enrich scan apiKey o clock w = Resolved scan'
    /\ allBlocks (generateCompliancePDF heightOfString scan')
       = [ BHeader; summaryBlock scan;
           BRisk (if truthy_opt apiKey
                  then match o with
                       | AiNoJson => "Unable to assess"
                       | _ => "Unable to assess (AI error)"
                       end
                  else "Unable to assess (no AI available)");
           BFindingsHeading ]
         ++ findingBlocks 0 (findingsList scan)
         ++ [BRecsHeading; BFooter].
Proof.
  intros Hfail.
  destruct (failed_analysis_risk apiKey o clock Hfail) as (ai & E & Herr & Hrisk & Hrecs).
  pose proof (enrich_with_error scan apiKey o clock w ai E Herr) as Hen.
  eexists. split; [exact Hen |].
  rewrite allBlocks_generateCompliancePDF.
  unfold documentBlocks, riskOf, recsOf, summaryBlock, findingsList.
  cbn [aiAnalysis summary findings]. rewrite Hrisk, Hrecs.
  cbn [truthy_opt recBlocks].
  assert (Ht : truthy (if truthy_opt apiKey
                       then match o with
                            | AiNoJson => "Unable to assess"
                            | _ => "Unable to assess (AI error)"
                            end
                       else "Unable to assess (no AI available)") = true).
  { destruct (truthy_opt apiKey); [destruct o |]; reflexivity. }
  rewrite Ht. reflexivity.
Qed.

Lemma failed_analysis_report_blocks_witness :
  exists scan',
    enrich shortScan None AiNoJson 5000 firstReplyOnly = Resolved scan'
    /\ allBlocks (generateCompliancePDF clampedHeight scan')
       = [ BHeader; summaryBlock shortScan;
           BRisk "Unable to assess (no AI available)";
           BFindingsHeading ]
         ++ findingBlocks 0 (findingsList shortScan)
         ++ [BRecsHeading; BFooter].
Proof.
  apply (failed_analysis_report_blocks clampedHeight shortScan None AiNoJson 5000
           firstReplyOnly).
  left. reflexivity.
Defined.

Lemma text_set_prop_other (k : string) (v : json) (f : Finding) :
  k <> "fixSuggestion" ->
  text k (set_prop "fixSuggestion" v f) = text k f.
Proof.
  intros Hne. unfold text. rewrite assoc_set_prop_other by exact Hne. reflexivity.
Qed.

(** X20.  A fix suggestion makes the block of its finding higher by the
    line "Suggested Fix:" and the suggestion's text: for a finding whose
    printed properties are textual and which has no suggestion of its own
    (none, or an empty or falsy one), setting a non-empty suggestion adds
    12 points, the height of the text at size 9 and width 497, and 15
    points to the height of the block; an empty suggestion (a reply of
    white space only) adds nothing, as the generator prints no suggestion
    then. *)
Theorem fix_suggestion_height
    (heightOfString : Z -> string -> Z -> Z) (f : Finding) (t : string) :
  textual f = true ->
  truthy_opt (text "fixSuggestion" f) = false ->
  textual (set_prop "fixSuggestion" (JStr t) f) = true
  /\ findingHeight heightOfString (set_prop "fixSuggestion" (JStr t) f)
     = findingHeight heightOfString f
       + (if truthy t then 12 + (heightOfString 9 t 497 + 15) else 0).
Proof.
  intros Htext Hnone. split.
  - unfold textual, textualProp in *.
    rewrite !assoc_set_prop_other by discriminate.
    rewrite assoc_set_prop_same.
    apply andb_prop in Htext. destruct Htext as [Htext _]. rewrite Htext. reflexivity.
  - unfold findingHeight.
    rewrite !text_set_prop_other by discriminate.
    assert (E : text "fixSuggestion" (set_prop "fixSuggestion" (JStr t) f) = Some t).
    { unfold text. rewrite assoc_set_prop_same. reflexivity. }
    rewrite E.
    destruct (text "fixSuggestion" f) as [old |]; cbn [truthy_opt] in Hnone.
    + rewrite Hnone. lia.
    + lia.
Qed.

Lemma fix_suggestion_height_witness :
  textual findingA = true
  /\ truthy_opt (text "fixSuggestion" findingA) = false
  /\ textual (set_prop "fixSuggestion" (JStr "Remove the private framework.") findingA)
     = true
  /\ findingHeight clampedHeight
       (set_prop "fixSuggestion" (JStr "Remove the private framework.") findingA)
     = findingHeight clampedHeight findingA
       + (if truthy "Remove the private framework."
          then 12 + (clampedHeight 9 "Remove the private framework." 497 + 15)
          else 0).
Proof.
  split; [reflexivity |]. split; [reflexivity |].
  apply (fix_suggestion_height clampedHeight findingA
           "Remove the private framework."); reflexivity.
Defined.

(** ** A fetch that rejects *)

(** X21.  The failure branches of the cache never touch it.  When the
    awaited fetch rejects, [getCachedGuidelines] and the refresh handler
    leave both cache variables as they were; [getCachedGuidelines] then
    rejects only when nothing is cached, passing the fetch error on, and
    otherwise serves the cached document marked [cached] (and [stale] when
    it was not fresh), with the sections, address and time of the entry. *)
Theorem rejected_fetch_leaves_cache
    (st : Cache) (now nowAfter : Z) (e : string) :
  snd (getCachedGuidelines st now (Rejected e)) = st
  /\ refreshHandler st (Rejected e) nowAfter
     = (Err500 "Failed to refresh guidelines" (Some e), st)
  /\ match fst (getCachedGuidelines st now (Rejected e)) with
     | Rejected e' => e' = e /\ guidelinesCache st = None
     | Resolved s =>
         cached s = Some true
         /\ (stale s = Some true <-> fresh st now = None)
         /\ exists g, guidelinesCache st = Some g
                      /\ sections (doc s) = sections g
                      /\ url (doc s) = url g
                      /\ lastUpdated (doc s) = lastUpdated g
     end.
Proof.
  split; [| split; [reflexivity |]].
  - unfold getCachedGuidelines.
    destruct (fresh st now) as [[g ts] |]; [reflexivity |].
    cbn [getCached_afterFetch]. destruct (guidelinesCache st); reflexivity.
  - unfold getCachedGuidelines.
    destruct (fresh st now) as [[g ts] |] eqn:F.
    + cbn [fst cached stale doc]. split; [reflexivity |].
      split; [split; discriminate |].
      exists g. unfold fresh in F.
      destruct (guidelinesCache st) as [g0 |]; [| discriminate].
      destruct (cacheTimestamp st) as [ts0 |]; [| discriminate].
      destruct (negb (ts0 =? 0) && (now - ts0 <? CACHE_DURATION))%bool;
        [| discriminate].
      injection F as -> _. repeat split.
    + cbn [getCached_afterFetch].
      destruct (guidelinesCache st) as [g |]; cbn [fst cached stale doc].
      * split; [reflexivity |]. split; [split; reflexivity |].
        exists g. repeat split.
      * split; reflexivity.
Qed.

(** ** The stored timestamp is a clock reading *)

Lemma lookup_pending_in (id : nat) (p : list (nat * Z)) (now : Z) :
  lookup_pending id p = Some now -> In (id, now) p.
Proof.
  induction p as [| [i n] rest IH]; cbn [lookup_pending]; [discriminate |].
  destruct (Nat.eqb_spec i id) as [-> | _].
  - intros [= ->]. left. reflexivity.
  - intros H. right. apply IH. exact H.
Qed.

Lemma remove_pending_in (id : nat) (p : list (nat * Z)) (c : nat * Z) :
  In c (remove_pending id p) -> In c p.
Proof.
  induction p as [| [i n] rest IH]; cbn [remove_pending]; [tauto |].
  destruct (Nat.eqb i id).
  - intros H. right. exact H.
  - intros [<- | H]; [left; reflexivity | right; apply IH; exact H].
Qed.

Lemma timestamps_are_readings (ts : list Turn) :
  forall (l : Loop) (seen : list Z),
    (forall t, cacheTimestamp (cache l) = Some t -> In t seen) ->
    (forall c, In c (pending l) -> In (snd c) seen) ->
    forall t, cacheTimestamp (cache (snd (turns l ts))) = Some t ->
              In t (seen ++ readings ts).
Proof.
  induction ts as [| tn rest IH]; intros l seen Hc Hp t Ht.
  - cbn in Ht. rewrite app_nil_r. apply Hc. exact Ht.
  - rewrite turns_cons in Ht.
    destruct tn as [id now | id fetched | fetched nowAfter];
      cbn [readings turn] in *.
    + replace (seen ++ now :: readings rest) with ((seen ++ [now]) ++ readings rest)
        by (rewrite <- app_assoc; reflexivity).
      refine (IH _ (seen ++ [now]) _ _ t Ht).
      * intros t0 H0. apply in_or_app. left.
        destruct (fresh (cache l) now); apply Hc; exact H0.
      * intros c H0. apply in_or_app.
        destruct (fresh (cache l) now); cbn [snd pending] in H0.
        -- left. apply Hp. exact H0.
        -- destruct H0 as [<- | H0]; [right; left; reflexivity | left; apply Hp; exact H0].
    + refine (IH _ seen _ _ t Ht).
      * intros t0 H0.
        destruct (lookup_pending id (pending l)) as [now |] eqn:L; cbn [snd cache] in H0.
        -- apply lookup_pending_in in L.
           destruct fetched as [g | e]; cbn in H0.
           ++ injection H0 as <-. apply (Hp (id, now)). exact L.
           ++ destruct (guidelinesCache (cache l)); apply Hc; exact H0.
        -- apply Hc. exact H0.
      * intros c H0.
        destruct (lookup_pending id (pending l)) as [now |]; cbn [snd pending] in H0.
        -- apply Hp. eapply remove_pending_in. exact H0.
        -- apply Hp. exact H0.
    + replace (seen ++ nowAfter :: readings rest)
        with ((seen ++ [nowAfter]) ++ readings rest)
        by (rewrite <- app_assoc; reflexivity).
      refine (IH _ (seen ++ [nowAfter]) _ _ t Ht).
      * intros t0 H0. apply in_or_app. cbn [snd cache] in H0.
        destruct fetched as [g | e]; cbn in H0.
        -- injection H0 as <-. right. left. reflexivity.
        -- left. apply Hc. exact H0.
      * intros c H0. apply in_or_app. left. apply Hp. exact H0.
Qed.

(** X22.  The stored timestamp is never invented: after any sequence of
    turns of a server that started with an empty cache, [cacheTimestamp],
    when set, is one of the readings of [Date.now()] made by those turns,
    so it never lies beyond the latest reading of a clock that does not go
    back. *)
Theorem cache_timestamp_is_a_reading (ts : list Turn) (t : Z) :
  cacheTimestamp (cache (snd (turns emptyLoop ts))) = Some t ->
  In t (readings ts).
Proof.
  intros H.
  apply (timestamps_are_readings ts emptyLoop [] ); [| | exact H].
  - intros t0 H0. discriminate.
  - intros c [].
Qed.

Lemma cache_timestamp_is_a_reading_witness :
  cacheTimestamp
    (cache (snd (turns emptyLoop
                   [ GetBegin 0 100;
                     RefreshSettle (Resolved liveDoc) 110;
                     GetSettle 0 (Resolved liveDoc) ]))) = Some 100
  /\ In 100 (readings [ GetBegin 0 100;
                        RefreshSettle (Resolved liveDoc) 110;
                        GetSettle 0 (Resolved liveDoc) ]).
Proof.
  split.
  - reflexivity.
  - apply (cache_timestamp_is_a_reading
             [ GetBegin 0 100;
               RefreshSettle (Resolved liveDoc) 110;
               GetSettle 0 (Resolved liveDoc) ] 100).
    reflexivity.
Defined.
